(** * MangoHud OpenTelemetry exporter: a shallow embedding of
      [src/otel_exporter.cpp] and [src/otel_exporter.h]

    The first half of the file holds the model: the pieces of the C and C++
    run-time libraries the exporter calls ([Module Std]) and the member
    functions of [class OtelExporter] ([Module OtelExporter]), each under the
    name it has in the source; the member functions that depend on what the
    other threads of the exporter do are taken again with the mutex and the
    shared members in them ([Module Threaded]).  The second half holds the
    lemmas. *)

From Stdlib Require Import ZArith List String Ascii Bool Lia.
From Stdlib Require Import Decimal DecimalString DecimalPos DecimalZ.
From Stdlib Require Import SpecFloat.
Import ListNotations.

Open Scope string_scope.
Open Scope Z_scope.

(* ================================================================= *)
(** ** The run-time library, as far as the exporter uses it *)

Module Std.

(** *** Characters *)

Definition NUL : ascii := "000"%char.
Definition TAB : ascii := "009"%char.
Definition LF : ascii := "010"%char.
Definition CR : ascii := "013"%char.
Definition DQUOTE : ascii := "034"%char.
Definition BACKSLASH : ascii := "\"%char.

Definition code (c : ascii) : Z := Z.of_nat (nat_of_ascii c).

(** [isspace] in the "C" locale: space, and the five controls 9..13. *)
Definition isspace (c : ascii) : bool :=
  (code c =? 32) || ((9 <=? code c) && (code c <=? 13)).

(** The value of a decimal digit character. *)
Definition digit_of (c : ascii) : option Z :=
  if (48 <=? code c) && (code c <=? 57) then Some (code c - 48) else None.

Definition isdigit (c : ascii) : bool :=
  match digit_of c with Some _ => true | None => false end.

(** *** Exceptions

    The two [std::exception]s that the calls below can throw.  A computation
    that may throw returns a [result]. *)

Inductive exception : Type :=
| invalid_argument
| out_of_range.

Inductive result (A : Type) : Type :=
| Ok (a : A)
| Throw (e : exception).

Arguments Ok {A} a.
Arguments Throw {A} e.

Definition bind {A B : Type} (r : result A) (k : A -> result B) : result B :=
  match r with
  | Ok a => k a
  | Throw e => Throw e
  end.

(** [try { body } catch (const std::exception&) { handler }] *)
Definition try_catch {A : Type} (body : result A) (handler : exception -> A) : A :=
  match body with
  | Ok a => a
  | Throw e => handler e
  end.

(** *** [std::string] *)

Fixpoint drop (n : nat) (s : string) : string :=
  match n, s with
  | O, _ => s
  | S n', String _ s' => drop n' s'
  | S _, EmptyString => EmptyString
  end.

Fixpoint take (n : nat) (s : string) : string :=
  match n, s with
  | O, _ => EmptyString
  | S n', String c s' => String c (take n' s')
  | S _, EmptyString => EmptyString
  end.

(** [s.find(c)]: the position of the first [c]; [None] is [npos]. *)
Fixpoint find (c : ascii) (s : string) : option nat :=
  match s with
  | EmptyString => None
  | String a s' =>
      if Ascii.eqb a c then Some O else option_map S (find c s')
  end.

(** [s.substr(pos, count)] throws [out_of_range] when [pos > s.size()] and
    otherwise returns at most [count] characters from [pos] on. *)
Definition substr (s : string) (pos count : nat) : result string :=
  if (String.length s <? pos)%nat then Throw out_of_range
  else Ok (take count (drop pos s)).

(** [s.substr(pos)]: the same with [count = npos]. *)
Definition substr_from (s : string) (pos : nat) : result string :=
  if (String.length s <? pos)%nat then Throw out_of_range
  else Ok (drop pos s).

(** [s.find_first_not_of(set) != npos] *)
Fixpoint mem_char (c : ascii) (set : string) : bool :=
  match set with
  | EmptyString => false
  | String a set' => Ascii.eqb a c || mem_char c set'
  end.

Fixpoint has_char_not_of (set : string) (s : string) : bool :=
  match s with
  | EmptyString => false
  | String c s' => negb (mem_char c set) || has_char_not_of set s'
  end.

(** *** [std::stoi]

    [std::stoi(str)] runs [strtol(str.c_str(), &end, 10)]: leading white
    space is skipped, one sign is accepted, then the longest run of decimal
    digits is read and whatever follows is ignored.  No digit at all throws
    [invalid_argument]; a value that does not fit [int] throws
    [out_of_range]. *)

Definition INT_MAX : Z := 2147483647.
Definition INT_MIN : Z := -2147483648.

Fixpoint skip_spaces (s : string) : string :=
  match s with
  | String c s' => if isspace c then skip_spaces s' else s
  | EmptyString => s
  end.

(** The digit loop: [acc] is the value read so far, [any] tells whether a
    digit has been read. *)
Fixpoint scan_digits (s : string) (acc : Z) (any : bool) : option Z :=
  match s with
  | String c s' =>
      match digit_of c with
      | Some d => scan_digits s' (acc * 10 + d) true
      | None => if any then Some acc else None
      end
  | EmptyString => if any then Some acc else None
  end.

Definition strip_sign (s : string) : bool * string :=
  match s with
  | String c s' =>
      if Ascii.eqb c "-" then (true, s')
      else if Ascii.eqb c "+" then (false, s')
      else (false, s)
  | EmptyString => (false, s)
  end.

Definition stoi (str : string) : result Z :=
  let (negative, digits) := strip_sign (skip_spaces str) in
  match scan_digits digits 0 false with
  | None => Throw invalid_argument
  | Some magnitude =>
      let value := if negative then - magnitude else magnitude in
      if (value <? INT_MIN) || (INT_MAX <? value) then Throw out_of_range
      else Ok value
  end.

(** *** Decimal output of integers

    [std::to_string(int)] and [operator<<] on [int], [long long] and [size_t]
    in the classic locale: a minus sign for negative values, then the decimal
    digits without leading zeros. *)
Definition to_string (z : Z) : string :=
  NilZero.string_of_int (Z.to_int z).

Definition digit_char (d : Z) : ascii := ascii_of_nat (48 + Z.to_nat d).

(** *** C strings

    A [char] buffer read as a C string ends at its first NUL. *)
Definition c_str (buffer : string) : string :=
  match find NUL buffer with
  | Some n => take n buffer
  | None => buffer
  end.

(** [strstr(haystack, needle)]: the offset of the first occurrence, [None]
    for the null pointer. *)
Fixpoint strstr (haystack needle : string) : option nat :=
  if String.prefix needle haystack then Some O
  else match haystack with
       | EmptyString => None
       | String _ rest => option_map S (strstr rest needle)
       end.

(** *** Fixed-point output of floating-point numbers

    [float] and [double] values are Stdlib's [spec_float]: a finite non-zero
    number [S754_finite s m e] is [(-1)^s * m * 2^e].  A [float] is widened
    to [double] before it is printed, which keeps [m] and [e].
    [os << std::fixed << std::setprecision(p) << x] prints like
    [printf("%.*f", p, x)]: the exact binary value is rounded to [p] decimals,
    ties to even, in the classic locale.  ([spec_float] has one NaN, so the
    sign that printf shows for a NaN is not modelled.) *)

Definition round_half_even (n d : Z) : Z :=
  let q := n / d in
  match 2 * (n mod d) ?= d with
  | Lt => q
  | Gt => q + 1
  | Eq => if Z.even q then q else q + 1
  end.

(** [m * 2^e * 10^p], rounded to an integer. *)
Definition scaled (p : nat) (m : positive) (e : Z) : Z :=
  if 0 <=? e then Zpos m * 2 ^ e * 10 ^ Z.of_nat p
  else round_half_even (Zpos m * 10 ^ Z.of_nat p) (2 ^ (- e)).

(** The last [p] decimal digits of [n]. *)
Fixpoint fraction_digits (p : nat) (n : Z) : string :=
  match p with
  | O => EmptyString
  | S p' => fraction_digits p' (n / 10) ++ String (digit_char (n mod 10)) EmptyString
  end.

(** The digits of [q / 10^p] with [p] decimals. *)
Definition fixed_digits (p : nat) (q : Z) : string :=
  to_string (q / 10 ^ Z.of_nat p) ++
  match p with
  | O => EmptyString
  | S _ => "." ++ fraction_digits p q
  end.

Definition sign_string (s : bool) : string := if s then "-" else "".

Definition format_fixed (p : nat) (x : spec_float) : string :=
  match x with
  | S754_zero s => sign_string s ++ fixed_digits p 0
  | S754_infinity s => sign_string s ++ "inf"
  | S754_nan => "nan"
  | S754_finite s m e => sign_string s ++ fixed_digits p (scaled p m e)
  end.

(** [static_cast<float>(int)]: rounding to binary32. *)
Definition float_of_int (z : Z) : spec_float :=
  binary_normalize 24 128 z 0 false.

(** *** [std::ostringstream]

    The stream is the text written so far.  [operator<<] is overloaded on
    the type of what is inserted. *)

Definition ostringstream : Type := string.

Class Insertable (A : Type) : Type := insert_text : A -> string.

#[export] Instance insert_string : Insertable string := fun s => s.
#[export] Instance insert_integer : Insertable Z := to_string.

(** [std::fixed << std::setprecision(p) << x], always written together in the
    exporter.  Both manipulators stay set on the stream, which later integer
    insertions do not look at. *)
Record fixed_float : Type := fixed_setprecision { fx_precision : nat; fx_value : spec_float }.

#[export] Instance insert_fixed : Insertable fixed_float :=
  fun f => format_fixed (fx_precision f) (fx_value f).

Definition put {A : Type} `{Insertable A} (os : ostringstream) (x : A) : ostringstream :=
  os ++ insert_text x.

(** *** [std::mutex], and how a call can end

    A mutex is free or owned by one thread.  [lock] by the owner itself is
    undefined behaviour (the C++ standard names deadlock as the example, and
    that is what the pthread mutex behind it does); [lock] on a mutex owned by
    another thread waits. *)

Definition thread_id : Type := nat.

Definition mutex : Type := option thread_id.

Inductive outcome (A : Type) : Type :=
| Returns (a : A)
| Blocks
| Undefined
| Terminates.

Arguments Returns {A} a.
Arguments Blocks {A}.
Arguments Undefined {A}.
Arguments Terminates {A}.

Definition and_then {A B : Type} (o : outcome A) (k : A -> outcome B) : outcome B :=
  match o with
  | Returns a => k a
  | Blocks => Blocks
  | Undefined => Undefined
  | Terminates => Terminates
  end.

Definition lock (self : thread_id) (m : mutex) : outcome mutex :=
  match m with
  | None => Returns (Some self)
  | Some owner => if Nat.eqb owner self then Undefined else Blocks
  end.

Definition unlock (m : mutex) : mutex := None.

(** *** [std::thread]

    A handle owns a thread of execution or none.  Of the thread itself the
    model keeps its entry function and what [join] depends on: whether it is
    blocked for good, or returns once it is asked to stop. *)

Record thread_of_execution (F : Type) : Type := spawn_thread {
  entry : F;
  blocked_for_good : bool
}.

Arguments spawn_thread {F} entry blocked_for_good.
Arguments entry {F} t.
Arguments blocked_for_good {F} t.

Definition thread (F : Type) : Type := option (thread_of_execution F).

Definition joinable {F : Type} (t : thread F) : bool :=
  match t with
  | Some _ => true
  | None => false
  end.

(** [t.join()] waits for the thread to finish and leaves the handle empty;
    on an empty handle it throws [std::system_error], which nothing in the
    exporter catches. *)
Definition join {F : Type} (t : thread F) : outcome (thread F) :=
  match t with
  | Some th => if blocked_for_good th then Blocks else Returns None
  | None => Terminates
  end.

(** [t = std::thread(f, this)]: move assignment calls [std::terminate] when
    [t] still owns a thread. *)
Definition assign_thread {F : Type} (t : thread F) (f : F) : outcome (thread F) :=
  if joinable t then Terminates else Returns (Some (spawn_thread f false)).

(** *** [inet_pton(AF_INET, src, dst)]

    The C library reads dotted decimal only: four numbers of 0..255, each of
    one to three digits without a leading zero, single dots between them and
    nothing else.  The loop is the one of glibc's [inet_pton4]: [tp] is the
    octet being read, [tmp] the octets finished, [octets] the count of octets
    begun.  [None] stands for the return value 0. *)
Fixpoint inet_pton4 (src : string) (saw_digit : bool) (octets : nat)
    (tp : Z) (tmp : list Z) : option (list Z) :=
  match src with
  | EmptyString => if (octets <? 4)%nat then None else Some (tmp ++ [tp])%list
  | String ch rest =>
      match digit_of ch with
      | Some d =>
          let new := tp * 10 + d in
          if saw_digit && (tp =? 0) then None
          else if 255 <? new then None
          else if saw_digit then inet_pton4 rest true octets new tmp
          else if (4 <? octets + 1)%nat then None
          else inet_pton4 rest true (octets + 1) new tmp
      | None =>
          if Ascii.eqb ch "." && saw_digit then
            if (octets =? 4)%nat then None
            else inet_pton4 rest false octets 0 (tmp ++ [tp])%list
          else None
      end
  end.

(** The value returned and the address stored. *)
Definition inet_pton (src : string) : Z * list Z :=
  match inet_pton4 (c_str src) false 0 0 [] with
  | Some octets => (1, octets)
  | None => (0, [])
  end.

(** [FD_SET(fd, &set)] is defined for descriptors from 0 up to, but not
    including, [FD_SETSIZE]. *)
Definition FD_SETSIZE : Z := 1024.

End Std.

(* ================================================================= *)
(** ** class OtelExporter *)

Module OtelExporter.
Import Std.

(** *** Bind address resolver *)

(** What [parse_bind_address] hands to the logger. *)
Inductive log_entry : Type :=
| error_invalid_port (port : Z)
| error_parse_port (port_str : string)
| warn_address_format (address : string).

Definition default_port : Z := 16969.

Definition static_cast_uint16 (port : Z) : Z := port mod 65536.

(** The [try] block of either branch: the port and what is logged. *)
Definition port_of (port_str : string) : Z * list log_entry :=
  try_catch
    (bind (stoi port_str) (fun port =>
       Ok (if (port <? 1) || (65535 <? port)
           then (default_port, [error_invalid_port port])
           else (static_cast_uint16 port, []))))
    (fun _ => (default_port, [error_parse_port port_str])).

(** The closing "basic check" on the address, which only warns. *)
Definition validate_address (bind_address : string) : list log_entry :=
  if negb (bind_address =? "0.0.0.0")%string
     && negb (bind_address =? "127.0.0.1")%string
     && negb (bind_address =? "localhost")%string
     && has_char_not_of "0123456789." bind_address
  then [warn_address_format bind_address]
  else [].

Record bind_target : Type := mk_bind_target {
  address : string;
  port : Z;
  logged : list log_entry
}.

(** [substr] stands outside the [try] blocks, so an exception of it would
    leave the function: the result type keeps that possibility. *)
Definition parse_bind_address (address : string) : result bind_target :=
  match find ":" address with
  | Some colon_pos =>
      bind (substr address 0 colon_pos) (fun bind_address =>
      bind (substr_from address (colon_pos + 1)) (fun port_str =>
      let (bind_port, lg) := port_of port_str in
      Ok (mk_bind_target bind_address bind_port
            (lg ++ validate_address bind_address))))
  | None =>
      let bind_address := "0.0.0.0" in
      let (bind_port, lg) := port_of address in
      Ok (mk_bind_target bind_address bind_port
            (lg ++ validate_address bind_address))
  end.


(** *** Cached metrics ([struct MetricsData]) *)

Record MetricsData : Type := mk_MetricsData {
  fps : spec_float;            (* double *)
  frametime : spec_float;      (* float *)
  cpu_load : spec_float;
  cpu_power : spec_float;
  cpu_mhz : Z;                 (* int *)
  cpu_temp : Z;
  gpu_load : spec_float;
  gpu_temp : Z;
  gpu_core_clock : Z;
  gpu_mem_clock : Z;
  gpu_power : spec_float;
  gpu_vram_used : spec_float;
  ram_used : spec_float;
  swap_used : spec_float;
  process_rss : spec_float;
  process_name : string;
  graphics_api : string;
  process_pid : Z;
  timestamp : Z                (* steady_clock::time_point *)
}.

(** The default member initialisers. *)
Definition MetricsData_default : MetricsData :=
  let z := S754_zero false in
  mk_MetricsData z z z z 0 0 z 0 0 0 z z z z z "" "" 0 0.

(** *** Exposition renderer *)

(** The loop of [escape_label_value] appends to [result] one case of the
    [switch] per character. *)
Definition escape_case (c : ascii) : string :=
  if Ascii.eqb c BACKSLASH then "\\"
  else if Ascii.eqb c DQUOTE then String BACKSLASH (String DQUOTE "")
  else if Ascii.eqb c LF then "\n"
  else if Ascii.eqb c CR then "\r"
  else if Ascii.eqb c TAB then "\t"
  else String c "".

Fixpoint escape_loop (value result : string) : string :=
  match value with
  | EmptyString => result
  | String c rest => escape_loop rest (result ++ escape_case c)
  end.

Definition escape_label_value (value : string) : string :=
  escape_loop value "".

Definition dq : string := String DQUOTE "".
Definition nl : string := String LF "".

Declare Scope stream_scope.
Delimit Scope stream_scope with stream.
Notation "os << x" := (put os x) (at level 50, left associativity) : stream_scope.

(** The text that [generate_metrics] renders, statement by statement, once
    it holds its lock guard.  [now] is the one reading of [system_clock] in
    milliseconds; [cm] is [current_metrics_].  The member function with its
    lock guard is [Threaded.generate_metrics] below. *)
Definition generate_metrics (cm : MetricsData) (now : Z) : string :=
  (let oss : ostringstream := "" in
   let labels : string :=
     "process_name=" ++ dq ++ escape_label_value (process_name cm) ++
     dq ++ ",graphics_api=" ++ dq ++ escape_label_value (graphics_api cm) ++
     dq ++ ",pid=" ++ dq ++ to_string (process_pid cm) ++ dq in

   let oss := oss << "# HELP mangohud_fps_current Current frames per second" << nl in
   let oss := oss << "# TYPE mangohud_fps_current gauge" << nl in
   let oss := oss << "mangohud_fps_current{" << labels << "} " << fixed_setprecision 2 (fps cm)
                  << " " << now << nl in

   let oss := oss << "# HELP mangohud_frametime_ms Current frame time in milliseconds" << nl in
   let oss := oss << "# TYPE mangohud_frametime_ms gauge" << nl in
   let oss := oss << "mangohud_frametime_ms{" << labels << "} " << fixed_setprecision 3 (frametime cm)
                  << " " << now << nl in

   let oss := oss << "# HELP mangohud_cpu_load_percent CPU load percentage" << nl in
   let oss := oss << "# TYPE mangohud_cpu_load_percent gauge" << nl in
   let oss := oss << "mangohud_cpu_load_percent{" << labels << "} " << fixed_setprecision 1 (cpu_load cm)
                  << " " << now << nl in

   let oss := oss << "# HELP mangohud_cpu_power_watts CPU power consumption in watts" << nl in
   let oss := oss << "# TYPE mangohud_cpu_power_watts gauge" << nl in
   let oss := oss << "mangohud_cpu_power_watts{" << labels << "} " << fixed_setprecision 1 (cpu_power cm)
                  << " " << now << nl in

   let oss := oss << "# HELP mangohud_cpu_frequency_mhz CPU frequency in MHz" << nl in
   let oss := oss << "# TYPE mangohud_cpu_frequency_mhz gauge" << nl in
   let oss := oss << "mangohud_cpu_frequency_mhz{" << labels << "} " << cpu_mhz cm
                  << " " << now << nl in

   let oss := oss << "# HELP mangohud_cpu_temperature_celsius CPU temperature in Celsius" << nl in
   let oss := oss << "# TYPE mangohud_cpu_temperature_celsius gauge" << nl in
   let oss := oss << "mangohud_cpu_temperature_celsius{" << labels << "} " << cpu_temp cm
                  << " " << now << nl in

   let oss := oss << "# HELP mangohud_gpu_load_percent GPU load percentage" << nl in
   let oss := oss << "# TYPE mangohud_gpu_load_percent gauge" << nl in
   let oss := oss << "mangohud_gpu_load_percent{" << labels << "} " << fixed_setprecision 1 (gpu_load cm)
                  << " " << now << nl in

   let oss := oss << "# HELP mangohud_gpu_temperature_celsius GPU temperature in Celsius" << nl in
   let oss := oss << "# TYPE mangohud_gpu_temperature_celsius gauge" << nl in
   let oss := oss << "mangohud_gpu_temperature_celsius{" << labels << "} " << gpu_temp cm
                  << " " << now << nl in

   let oss := oss << "# HELP mangohud_gpu_core_clock_mhz GPU core clock in MHz" << nl in
   let oss := oss << "# TYPE mangohud_gpu_core_clock_mhz gauge" << nl in
   let oss := oss << "mangohud_gpu_core_clock_mhz{" << labels << "} " << gpu_core_clock cm
                  << " " << now << nl in

   let oss := oss << "# HELP mangohud_gpu_memory_clock_mhz GPU memory clock in MHz" << nl in
   let oss := oss << "# TYPE mangohud_gpu_memory_clock_mhz gauge" << nl in
   let oss := oss << "mangohud_gpu_memory_clock_mhz{" << labels << "} " << gpu_mem_clock cm
                  << " " << now << nl in

   let oss := oss << "# HELP mangohud_gpu_power_watts GPU power consumption in watts" << nl in
   let oss := oss << "# TYPE mangohud_gpu_power_watts gauge" << nl in
   let oss := oss << "mangohud_gpu_power_watts{" << labels << "} " << fixed_setprecision 1 (gpu_power cm)
                  << " " << now << nl in

   let oss := oss << "# HELP mangohud_gpu_vram_used_gb GPU VRAM used in GB" << nl in
   let oss := oss << "# TYPE mangohud_gpu_vram_used_gb gauge" << nl in
   let oss := oss << "mangohud_gpu_vram_used_gb{" << labels << "} " << fixed_setprecision 3 (gpu_vram_used cm)
                  << " " << now << nl in

   let oss := oss << "# HELP mangohud_ram_used_gb System RAM used in GB" << nl in
   let oss := oss << "# TYPE mangohud_ram_used_gb gauge" << nl in
   let oss := oss << "mangohud_ram_used_gb{" << labels << "} " << fixed_setprecision 3 (ram_used cm)
                  << " " << now << nl in

   let oss := oss << "# HELP mangohud_swap_used_gb System swap used in GB" << nl in
   let oss := oss << "# TYPE mangohud_swap_used_gb gauge" << nl in
   let oss := oss << "mangohud_swap_used_gb{" << labels << "} " << fixed_setprecision 3 (swap_used cm)
                  << " " << now << nl in

   let oss := oss << "# HELP mangohud_process_rss_gb Process RSS memory in GB" << nl in
   let oss := oss << "# TYPE mangohud_process_rss_gb gauge" << nl in
   let oss := oss << "mangohud_process_rss_gb{" << labels << "} " << fixed_setprecision 3 (process_rss cm)
                  << " " << now << nl in
   oss)%stream.

(** *** HTTP responder *)

(** What the client's connection delivers to the one [recv] call: an error,
    or the bytes that are there (none when the peer has closed). *)
Inductive connection : Type :=
| conn_error
| conn_bytes (data : string).

(** [recv(fd, buffer, len, 0)]: the count returned and the bytes stored. *)
Definition recv (client : connection) (len : nat) : Z * string :=
  match client with
  | conn_error => (-1, "")
  | conn_bytes data =>
      let got := take len data in
      (Z.of_nat (String.length got), got)
  end.

Definition crlf : string := String CR (String LF "").

Definition not_found : string :=
  "HTTP/1.1 404 Not Found" ++ crlf ++ "Content-Length: 0" ++ crlf ++
  "Connection: close" ++ crlf ++ crlf.

(** What [handle_metrics_request] sends to the client, one entry per call
    of [send], given the snapshot [cm] and the clock [now] that the renderer
    reads once it has its lock.  The member function, which waits for that
    lock, is [Threaded.handle_metrics_request] below. *)
Definition handle_metrics_request (cm : MetricsData) (now : Z) (client_socket : connection)
  : list string :=
  let (bytes_read, received) := recv client_socket (1024 - 1) in
  if bytes_read <=? 0 then []
  else
    let buffer := c_str (received ++ String NUL "") in
    match strstr buffer "GET /metrics" with
    | Some _ =>
        let metrics := generate_metrics cm now in
        let response : ostringstream := "" in
        (let response := response << "HTTP/1.1 200 OK" << crlf in
         let response := response << "Content-Type: text/plain; version=0.0.4; charset=utf-8" << crlf in
         let response := response << "Content-Length: " << Z.of_nat (String.length metrics) << crlf in
         let response := response << "Connection: close" << crlf in
         let response := response << crlf in
         let response := response << metrics in
         [response])%stream
    | None => [not_found]
    end.

(** *** What the exporter reads from the rest of the process *)

Module Live.

(** Modelled from the spec: [struct logData] is declared in [logging.h],
    which is not among the sources at hand.  It holds the 15 raw values that
    the snapshot mirrors; each field has the type of the snapshot field it is
    assigned to, except [gpu_load], an integer that the exporter casts to
    [float]. *)
Record logData : Type := mk_logData {
  fps : spec_float;
  frametime : spec_float;
  cpu_load : spec_float;
  cpu_power : spec_float;
  cpu_mhz : Z;
  cpu_temp : Z;
  gpu_load : Z;
  gpu_temp : Z;
  gpu_core_clock : Z;
  gpu_mem_clock : Z;
  gpu_power : spec_float;
  gpu_vram_used : spec_float;
  ram_used : spec_float;
  swap_used : spec_float;
  process_rss : spec_float
}.

(** Modelled from the spec: [HUDElements.sw_stats] is a pointer (null when
    the index source is absent) to a structure whose [engine] member indexes
    the table of engine names; the index is an enumeration without negative
    values. *)
Record swapchain_stats : Type := mk_swapchain_stats { engine : N }.

Record HudElements : Type := mk_HudElements { sw_stats : option swapchain_stats }.

(** Everything one call of [update_metrics] reads from outside the
    exporter: the two globals, [get_program_name()], [getpid()] and the
    steady clock. *)
Record process : Type := mk_process {
  currentLogData : logData;
  HUDElements : HudElements;
  get_program_name : string;
  getpid : Z;
  steady_clock_now : Z
}.

End Live.

(** *** The exporter object *)

Record overlay_params : Type := mk_overlay_params {
  otel_enabled : bool;
  otel_port : string;
  otel_start_timeout : Z;
  otel_update_interval : Z
}.

Inductive entry_point : Type :=
| entry_start_delay_timer
| entry_run.

Record exporter : Type := mk_exporter {
  enabled_ : bool;
  should_stop_ : bool;
  server_thread_ : thread entry_point;
  metrics_thread_ : thread entry_point;
  metrics_mutex_ : mutex;
  server_socket_ : Z;
  metrics_updated_ : bool;
  bind_address_ : string;
  bind_port_ : Z;
  current_metrics_ : MetricsData
}.

Definition set_should_stop (b : bool) (e : exporter) : exporter :=
  mk_exporter (enabled_ e) b (server_thread_ e) (metrics_thread_ e)
    (metrics_mutex_ e) (server_socket_ e) (metrics_updated_ e)
    (bind_address_ e) (bind_port_ e) (current_metrics_ e).

Definition set_server_thread (t : thread entry_point) (e : exporter) : exporter :=
  mk_exporter (enabled_ e) (should_stop_ e) t (metrics_thread_ e)
    (metrics_mutex_ e) (server_socket_ e) (metrics_updated_ e)
    (bind_address_ e) (bind_port_ e) (current_metrics_ e).

Definition set_metrics_thread (t : thread entry_point) (e : exporter) : exporter :=
  mk_exporter (enabled_ e) (should_stop_ e) (server_thread_ e) t
    (metrics_mutex_ e) (server_socket_ e) (metrics_updated_ e)
    (bind_address_ e) (bind_port_ e) (current_metrics_ e).

Definition set_metrics_mutex (m : mutex) (e : exporter) : exporter :=
  mk_exporter (enabled_ e) (should_stop_ e) (server_thread_ e) (metrics_thread_ e)
    m (server_socket_ e) (metrics_updated_ e)
    (bind_address_ e) (bind_port_ e) (current_metrics_ e).

Definition set_server_socket (fd : Z) (e : exporter) : exporter :=
  mk_exporter (enabled_ e) (should_stop_ e) (server_thread_ e) (metrics_thread_ e)
    (metrics_mutex_ e) fd (metrics_updated_ e)
    (bind_address_ e) (bind_port_ e) (current_metrics_ e).

Definition set_metrics_updated (b : bool) (e : exporter) : exporter :=
  mk_exporter (enabled_ e) (should_stop_ e) (server_thread_ e) (metrics_thread_ e)
    (metrics_mutex_ e) (server_socket_ e) b
    (bind_address_ e) (bind_port_ e) (current_metrics_ e).

Definition set_bind (a : string) (p : Z) (e : exporter) : exporter :=
  mk_exporter (enabled_ e) (should_stop_ e) (server_thread_ e) (metrics_thread_ e)
    (metrics_mutex_ e) (server_socket_ e) (metrics_updated_ e)
    a p (current_metrics_ e).

Definition set_current_metrics (cm : MetricsData) (e : exporter) : exporter :=
  mk_exporter (enabled_ e) (should_stop_ e) (server_thread_ e) (metrics_thread_ e)
    (metrics_mutex_ e) (server_socket_ e) (metrics_updated_ e)
    (bind_address_ e) (bind_port_ e) cm.

(** The constructor.  [bind_port_] has no initialiser, so a disabled
    exporter keeps whatever the storage held: [indeterminate]. *)
Definition OtelExporter (params : overlay_params) (indeterminate : Z)
  : result (exporter * list log_entry) :=
  let this :=
    mk_exporter (otel_enabled params) false None None None (-1) false
      "" indeterminate MetricsData_default in
  if negb (enabled_ this) then Ok (this, [])
  else
    bind (parse_bind_address (otel_port params)) (fun target =>
    Ok (set_bind (address target) (port target) this, logged target)).

(** *** Lifecycle controller *)

Definition start (this : exporter) : outcome exporter :=
  if negb (enabled_ this) || joinable (server_thread_ this) then Returns this
  else
    let this := set_should_stop false this in
    and_then (assign_thread (server_thread_ this) entry_start_delay_timer) (fun t =>
    let this := set_server_thread t this in
    and_then (assign_thread (metrics_thread_ this) entry_run) (fun t =>
    let this := set_metrics_thread t this in
    Returns this)).

(** [close(fd)] on the descriptors the process has open. *)
Definition close (fd : Z) (open_fds : list Z) : list Z :=
  List.remove Z.eq_dec fd open_fds.

(** [stop], statement by statement, as one thread runs it.  The second
    component is the process's table of open descriptors.  [notify_all]
    changes nothing that the model keeps.  What the joined threads do to the
    shared members while [stop] waits for them is in [Threaded.stop]
    below. *)
Definition stop (this : exporter) (open_fds : list Z) : outcome (exporter * list Z) :=
  let this := set_should_stop true this in
  let (this, open_fds) :=
    if 0 <=? server_socket_ this
    then (set_server_socket (-1) this, close (server_socket_ this) open_fds)
    else (this, open_fds) in
  and_then (if joinable (server_thread_ this)
            then join (server_thread_ this)
            else Returns (server_thread_ this)) (fun t =>
  let this := set_server_thread t this in
  and_then (if joinable (metrics_thread_ this)
            then join (metrics_thread_ this)
            else Returns (metrics_thread_ this)) (fun t =>
  let this := set_metrics_thread t this in
  Returns (this, open_fds))).

(** *** Sampler *)

Section Sampler.

(** The table [engines] is defined elsewhere in the process; the exporter
    only indexes it. *)
Variable engines : N -> string.

Definition update_metrics (self : thread_id) (host : Live.process) (this : exporter)
  : outcome exporter :=
  and_then (lock self (metrics_mutex_ this)) (fun held =>
  let this := set_metrics_mutex held this in
  let log := Live.currentLogData host in
  let cm := current_metrics_ this in
  let cm :=
    mk_MetricsData
      (Live.fps log) (Live.frametime log) (Live.cpu_load log) (Live.cpu_power log)
      (Live.cpu_mhz log) (Live.cpu_temp log) (float_of_int (Live.gpu_load log))
      (Live.gpu_temp log) (Live.gpu_core_clock log) (Live.gpu_mem_clock log)
      (Live.gpu_power log) (Live.gpu_vram_used log) (Live.ram_used log)
      (Live.swap_used log) (Live.process_rss log)
      (Live.get_program_name host)
      (match Live.sw_stats (Live.HUDElements host) with
       | Some st => if (Live.engine st <? 18)%N then engines (Live.engine st) else "unknown"
       | None => "unknown"
       end)
      (Live.getpid host)
      (Live.steady_clock_now host) in
  let this := set_current_metrics cm this in
  let this := set_metrics_updated true this in
  Returns (set_metrics_mutex (unlock held) this)).

(** One evaluation of the loop condition and body of [run].  [wait_for]
    gives the mutex up while it waits and owns it again when it returns the
    value of its predicate, which is [stop_requested]: whether [stop] has set
    the flag by then. *)
Record wakeup : Type := mk_wakeup {
  stop_requested : bool;
  host_then : Live.process
}.

Inductive loop_control : Type :=
| next_iteration
| loop_exit.

Definition run_iteration (self : thread_id) (w : wakeup) (this : exporter)
  : outcome (loop_control * exporter) :=
  if should_stop_ this then Returns (loop_exit, this)
  else
    and_then (lock self (metrics_mutex_ this)) (fun held =>
    let this := set_metrics_mutex held this in
    if stop_requested w
    then Returns (loop_exit, set_metrics_mutex (unlock held) (set_should_stop true this))
    else
      and_then (update_metrics self (host_then w) this) (fun this =>
      Returns (next_iteration, set_metrics_mutex (unlock held) this))).

(** [run] over the wake-ups the thread lives to see; [next_iteration] says
    that the loop is still going after the last of them. *)
Fixpoint run (self : thread_id) (ws : list wakeup) (this : exporter)
  : outcome (loop_control * exporter) :=
  match ws with
  | [] => Returns (next_iteration, this)
  | w :: ws' =>
      and_then (run_iteration self w this) (fun r =>
      match fst r with
      | next_iteration => run self ws' (snd r)
      | loop_exit => Returns r
      end)
  end.

End Sampler.

(** *** Listener *)

Definition is_enabled (this : exporter) : bool := enabled_ this.

(** The destructor calls [stop] and nothing else. *)
Definition destructor (this : exporter) (open_fds : list Z)
  : outcome (exporter * list Z) :=
  stop this open_fds.

(** What the listener thread hands to the logger. *)
Inductive server_log : Type :=
| info_starting_in (seconds : Z)
| error_create_socket
| warn_reuseaddr
| error_invalid_bind_address (bind_address : string)
| error_bind (bind_address : string) (bind_port : Z)
| error_listen
| info_listening (bind_address : string) (bind_port : Z)
| error_select.

(** What the system calls of the set-up return: [socket], [setsockopt],
    [bind] and [listen]. *)
Record listener_calls : Type := mk_listener_calls {
  socket_returns : Z;
  setsockopt_returns : Z;
  bind_returns : Z;
  listen_returns : Z
}.

(** One pass through the accept loop, as the thread meets it: whether
    [stop] has set the flag by the time of the loop test, what [select]
    returns (and whether [errno] is [EINTR] when it fails), whether the
    listening descriptor is in the set returned, what [accept] returns, what
    the accepted connection delivers, and the clock read by the renderer. *)
Record poll : Type := mk_poll {
  stop_seen : bool;
  select_returns : Z;
  errno_is_EINTR : bool;
  fd_isset : bool;
  accept_returns : Z;
  client : connection;
  now_ms : Z
}.

(** The listener thread's view: the exporter, the descriptors the process
    has open, what was sent to which client descriptor, and the log. *)
Record server : Type := mk_server {
  srv_this : exporter;
  srv_fds : list Z;
  srv_sent : list (Z * string);
  srv_log : list server_log
}.

(** The [while (!should_stop_)] loop of [setup_http_server] over the passes
    the thread lives to see, for the runs in which the renderer gets its
    lock at once and the snapshot stays as it is; [next_iteration] says that
    the loop is still going after the last pass.  The loop with the mutex
    and the snapshot as each pass finds them is [Threaded.accept_loop]
    below. *)
Fixpoint accept_loop (polls : list poll) (s : server)
  : outcome (loop_control * server) :=
  match polls with
  | [] => Returns (next_iteration, s)
  | p :: polls' =>
      let this := srv_this s in
      if should_stop_ this || stop_seen p then Returns (loop_exit, s)
      else if (server_socket_ this <? 0) || (FD_SETSIZE <=? server_socket_ this)
      then Undefined
      else if select_returns p <? 0 then
        if negb (errno_is_EINTR p)
        then Returns (loop_exit,
                      mk_server this (srv_fds s) (srv_sent s)
                        (srv_log s ++ [error_select]))
        else accept_loop polls' s
      else if (0 <? select_returns p) && fd_isset p then
        let client_socket := accept_returns p in
        if 0 <=? client_socket then
          let fds := client_socket :: srv_fds s in
          let sent :=
            map (fun data => (client_socket, data))
                (handle_metrics_request (current_metrics_ this) (now_ms p) (client p)) in
          let fds := close client_socket fds in
          accept_loop polls' (mk_server this fds (srv_sent s ++ sent) (srv_log s))
        else accept_loop polls' s
      else accept_loop polls' s
  end.

Definition setup_http_server (calls : listener_calls) (polls : list poll) (s : server)
  : outcome (loop_control * server) :=
  let this := set_server_socket (socket_returns calls) (srv_this s) in
  if server_socket_ this <? 0 then
    Returns (loop_exit,
             mk_server this (srv_fds s) (srv_sent s)
               (srv_log s ++ [error_create_socket]))
  else
    let fds := server_socket_ this :: srv_fds s in
    let log :=
      (srv_log s ++ (if setsockopt_returns calls <? 0 then [warn_reuseaddr] else []))%list in
    if fst (inet_pton (bind_address_ this)) <=? 0 then
      Returns (loop_exit,
               mk_server (set_server_socket (-1) this)
                 (close (server_socket_ this) fds) (srv_sent s)
                 (log ++ [error_invalid_bind_address (bind_address_ this)]))
    else if bind_returns calls <? 0 then
      Returns (loop_exit,
               mk_server (set_server_socket (-1) this)
                 (close (server_socket_ this) fds) (srv_sent s)
                 (log ++ [error_bind (bind_address_ this) (bind_port_ this)]))
    else if listen_returns calls <? 0 then
      Returns (loop_exit,
               mk_server (set_server_socket (-1) this)
                 (close (server_socket_ this) fds) (srv_sent s)
                 (log ++ [error_listen]))
    else
      accept_loop polls
        (mk_server this fds (srv_sent s)
           (log ++ [info_listening (bind_address_ this) (bind_port_ this)])).

(** [start_delay_timer]: [stop_after_sleep] tells whether [stop] has set the
    flag by the time the sleep is over. *)
Definition start_delay_timer (params : overlay_params) (stop_after_sleep : bool)
    (calls : listener_calls) (polls : list poll) (s : server)
  : outcome (loop_control * server) :=
  let s := mk_server (srv_this s) (srv_fds s) (srv_sent s)
             (srv_log s ++ [info_starting_in (otel_start_timeout params)]) in
  if negb (should_stop_ (srv_this s) || stop_after_sleep)
  then setup_http_server calls polls s
  else Returns (loop_exit, s).

End OtelExporter.

(* ================================================================= *)
(** ** The members that other threads share

    The functions of [OtelExporter] above that touch what another thread
    writes, taken again with that sharing in them: the renderer with its
    lock guard, the handler and the accept loop that wait for it, and [stop]
    with what the threads it joins leave behind. *)

Module Threaded.
Import Std OtelExporter.

(** [generate_metrics]: the lock guard, the text, the release. *)
Definition generate_metrics (self : thread_id) (this : exporter) (now : Z)
  : outcome (string * exporter) :=
  and_then (lock self (metrics_mutex_ this)) (fun held =>
  let this := set_metrics_mutex held this in
  let text := OtelExporter.generate_metrics (current_metrics_ this) now in
  Returns (text, set_metrics_mutex (unlock held) this)).

(** [handle_metrics_request]: what is sent, one entry per [send], and the
    exporter afterwards. *)
Definition handle_metrics_request (self : thread_id) (this : exporter) (now : Z)
    (client_socket : connection) : outcome (list string * exporter) :=
  let (bytes_read, received) := recv client_socket (1024 - 1) in
  if bytes_read <=? 0 then Returns ([], this)
  else
    let buffer := c_str (received ++ String NUL "") in
    match strstr buffer "GET /metrics" with
    | Some _ =>
        and_then (generate_metrics self this now) (fun rendered =>
        let metrics := fst rendered in
        let response : ostringstream := "" in
        (let response := response << "HTTP/1.1 200 OK" << crlf in
         let response := response << "Content-Type: text/plain; version=0.0.4; charset=utf-8" << crlf in
         let response := response << "Content-Length: " << Z.of_nat (String.length metrics) << crlf in
         let response := response << "Connection: close" << crlf in
         let response := response << crlf in
         let response := response << metrics in
         Returns ([response], snd rendered))%stream)
    | None => Returns ([not_found], this)
    end.

(** One pass of the accept loop together with the members that other
    threads write, as the listener finds them in that pass: who owns the
    snapshot mutex, and the snapshot. *)
Record pass : Type := mk_pass {
  seen : poll;
  mutex_then : mutex;
  snapshot_then : MetricsData
}.

(** How far the loop has come: still looping after the last pass, returned,
    or waiting for the mutex inside the handler, with the accepted
    descriptor [client_socket] not yet closed. *)
Inductive loop_outcome : Type :=
| still_looping (s : server)
| returned (s : server)
| waiting_for_mutex (s : server) (client_socket : Z)
| undefined_behaviour.

Fixpoint accept_loop (self : thread_id) (passes : list pass) (s : server)
  : loop_outcome :=
  match passes with
  | [] => still_looping s
  | ps :: passes' =>
      let p := seen ps in
      let this := srv_this s in
      if should_stop_ this || stop_seen p then returned s
      else if (server_socket_ this <? 0) || (FD_SETSIZE <=? server_socket_ this)
      then undefined_behaviour
      else if select_returns p <? 0 then
        if negb (errno_is_EINTR p)
        then returned (mk_server this (srv_fds s) (srv_sent s)
                         (srv_log s ++ [error_select]))
        else accept_loop self passes' s
      else if (0 <? select_returns p) && fd_isset p then
        let client_socket := accept_returns p in
        if 0 <=? client_socket then
          let fds := client_socket :: srv_fds s in
          let shared :=
            set_current_metrics (snapshot_then ps)
              (set_metrics_mutex (mutex_then ps) this) in
          match handle_metrics_request self shared (now_ms p) (client p) with
          | Returns handled =>
              let sent := map (fun data => (client_socket, data)) (fst handled) in
              let fds := close client_socket fds in
              accept_loop self passes'
                (mk_server this fds (srv_sent s ++ sent) (srv_log s))
          | Blocks =>
              waiting_for_mutex (mk_server this fds (srv_sent s) (srv_log s))
                client_socket
          | Undefined | Terminates => undefined_behaviour
          end
        else accept_loop self passes' s
      else accept_loop self passes' s
  end.

(** What the two background threads have left, once both have ended, of
    what they write: the socket handle and the open descriptors (listener),
    the snapshot, its flag and the mutex (sampler and renderer). *)
Record left_behind : Type := mk_left_behind {
  socket_left : Z;
  fds_left : list Z;
  mutex_left : mutex;
  updated_left : bool;
  snapshot_left : MetricsData
}.

(** [stop].  The flag and the socket are handled first ([notify_all]
    changes nothing that the model keeps); each [join] then waits for its
    thread to end.  When a thread was joined, the members the threads write
    are what they left behind, whatever [stop] had set them to before. *)
Definition stop (left : left_behind) (this : exporter) (open_fds : list Z)
  : outcome (exporter * list Z) :=
  let this := set_should_stop true this in
  let (this, open_fds) :=
    if 0 <=? server_socket_ this
    then (set_server_socket (-1) this, close (server_socket_ this) open_fds)
    else (this, open_fds) in
  let joins := joinable (server_thread_ this) || joinable (metrics_thread_ this) in
  and_then (if joinable (server_thread_ this)
            then join (server_thread_ this)
            else Returns (server_thread_ this)) (fun t =>
  let this := set_server_thread t this in
  and_then (if joinable (metrics_thread_ this)
            then join (metrics_thread_ this)
            else Returns (metrics_thread_ this)) (fun t =>
  let this := set_metrics_thread t this in
  if joins
  then Returns (mk_exporter (enabled_ this) (should_stop_ this)
                  (server_thread_ this) (metrics_thread_ this)
                  (mutex_left left) (socket_left left) (updated_left left)
                  (bind_address_ this) (bind_port_ this) (snapshot_left left),
                fds_left left)
  else Returns (this, open_fds))).

End Threaded.

(* ================================================================= *)
(** ** The vocabulary of the specification

    Definitions that follow the words of the specification, to be compared
    with the code above. *)

Module Spec.
Import Std OtelExporter.

(** The re-scan of an escaped label value: a backslash must be followed by
    one of the letters of an escaped form, and outside such a pair no raw
    double quote, newline, carriage return or tab may occur.  [pending]
    tells that the character before was an opening backslash. *)
Definition escape_letter (c : ascii) : bool :=
  Ascii.eqb c BACKSLASH || Ascii.eqb c DQUOTE || Ascii.eqb c "n"
  || Ascii.eqb c "r" || Ascii.eqb c "t".

Definition raw_forbidden (c : ascii) : bool :=
  Ascii.eqb c DQUOTE || Ascii.eqb c LF || Ascii.eqb c CR || Ascii.eqb c TAB.

Fixpoint rescan (pending : bool) (s : string) : bool :=
  match s with
  | EmptyString => negb pending
  | String c rest =>
      if pending then escape_letter c && rescan false rest
      else if Ascii.eqb c BACKSLASH then rescan true rest
      else negb (raw_forbidden c) && rescan false rest
  end.

(** Reading an escaped value back. *)
Fixpoint unescape (pending : bool) (s : string) : string :=
  match s with
  | EmptyString => EmptyString
  | String c rest =>
      if pending then
        String (if Ascii.eqb c "n" then LF
                else if Ascii.eqb c "r" then CR
                else if Ascii.eqb c "t" then TAB
                else c) (unescape false rest)
      else if Ascii.eqb c BACKSLASH then unescape true rest
      else String c (unescape false rest)
  end.

(** The two parts of a bind string: what precedes the first colon and what
    follows it; without a colon the whole string is the port part. *)
Definition port_part (input : string) : string :=
  match find ":" input with
  | Some n => drop (n + 1) input
  | None => input
  end.

Definition host_part (input : string) : string :=
  match find ":" input with
  | Some n => take n input
  | None => "0.0.0.0"
  end.

(** The exposition format: a document is a sequence of stanzas, one per
    metric family, each made of a HELP line, a TYPE line and one sample
    line [name{labels} value timestamp]. *)
Record family : Type := mk_family {
  family_name : string;
  family_help : string;
  family_value : string
}.

Definition help_line (f : family) : string :=
  "# HELP " ++ family_name f ++ " " ++ family_help f ++ nl.

Definition type_line (f : family) : string :=
  "# TYPE " ++ family_name f ++ " gauge" ++ nl.

Definition sample_line (labels ts : string) (f : family) : string :=
  family_name f ++ "{" ++ labels ++ "} " ++ family_value f ++ " " ++ ts ++ nl.

Definition stanza (labels ts : string) (f : family) : string :=
  help_line f ++ type_line f ++ sample_line labels ts f.

Fixpoint document (labels ts : string) (fs : list family) : string :=
  match fs with
  | [] => ""
  | f :: fs' => stanza labels ts f ++ document labels ts fs'
  end.

(** A line: text without a newline, closed by one. *)
Definition is_line (text : string) : Prop :=
  exists body, text = body ++ nl /\ find LF body = None.

(** The shared label set: [process_name], [graphics_api] and [pid], the two
    string values escaped. *)
Definition label_set (cm : MetricsData) : string :=
  "process_name=" ++ dq ++ escape_label_value (process_name cm) ++ dq ++
  ",graphics_api=" ++ dq ++ escape_label_value (graphics_api cm) ++ dq ++
  ",pid=" ++ dq ++ to_string (process_pid cm) ++ dq.

(** The 15 metric families of a snapshot, in the order of the
    specification, each value with the precision the specification gives
    it. *)
Definition metric_families (cm : MetricsData) : list family :=
  [ mk_family "mangohud_fps_current" "Current frames per second"
      (format_fixed 2 (fps cm));
    mk_family "mangohud_frametime_ms" "Current frame time in milliseconds"
      (format_fixed 3 (frametime cm));
    mk_family "mangohud_cpu_load_percent" "CPU load percentage"
      (format_fixed 1 (cpu_load cm));
    mk_family "mangohud_cpu_power_watts" "CPU power consumption in watts"
      (format_fixed 1 (cpu_power cm));
    mk_family "mangohud_cpu_frequency_mhz" "CPU frequency in MHz"
      (to_string (cpu_mhz cm));
    mk_family "mangohud_cpu_temperature_celsius" "CPU temperature in Celsius"
      (to_string (cpu_temp cm));
    mk_family "mangohud_gpu_load_percent" "GPU load percentage"
      (format_fixed 1 (gpu_load cm));
    mk_family "mangohud_gpu_temperature_celsius" "GPU temperature in Celsius"
      (to_string (gpu_temp cm));
    mk_family "mangohud_gpu_core_clock_mhz" "GPU core clock in MHz"
      (to_string (gpu_core_clock cm));
    mk_family "mangohud_gpu_memory_clock_mhz" "GPU memory clock in MHz"
      (to_string (gpu_mem_clock cm));
    mk_family "mangohud_gpu_power_watts" "GPU power consumption in watts"
      (format_fixed 1 (gpu_power cm));
    mk_family "mangohud_gpu_vram_used_gb" "GPU VRAM used in GB"
      (format_fixed 3 (gpu_vram_used cm));
    mk_family "mangohud_ram_used_gb" "System RAM used in GB"
      (format_fixed 3 (ram_used cm));
    mk_family "mangohud_swap_used_gb" "System swap used in GB"
      (format_fixed 3 (swap_used cm));
    mk_family "mangohud_process_rss_gb" "Process RSS memory in GB"
      (format_fixed 3 (process_rss cm)) ].

(** The metric names as the specification lists them; the exported name
    adds the prefix [mangohud_], and [_current] after [fps]. *)
Definition metric_names : list string :=
  [ "fps"; "frametime_ms"; "cpu_load_percent"; "cpu_power_watts";
    "cpu_frequency_mhz"; "cpu_temperature_celsius"; "gpu_load_percent";
    "gpu_temperature_celsius"; "gpu_core_clock_mhz"; "gpu_memory_clock_mhz";
    "gpu_power_watts"; "gpu_vram_used_gb"; "ram_used_gb"; "swap_used_gb";
    "process_rss_gb" ].

Definition exported_name (short : string) : string :=
  "mangohud_" ++ short ++ (if (short =? "fps")%string then "_current" else "").

(** The shapes of printed numbers. *)
Fixpoint all_digits (s : string) : bool :=
  match s with
  | EmptyString => true
  | String c rest => isdigit c && all_digits rest
  end.





(** 60.0 as a [double]: 60 = 8444249301319680 * 2^-47, a 53-bit mantissa. *)
Definition double_60 : spec_float := S754_finite false 8444249301319680 (-47).



(** The snapshot of the example in the specification; the fields it does
    not mention are left at their defaults. *)
Definition game_snapshot : MetricsData :=
  let z := S754_zero false in
  mk_MetricsData double_60 z z z 0 0 z 0 0 0 z z z z z "game" "vulkan" 1234 0.

(** The 200 response: status line, content type, the length of the body in
    bytes, connection closure, an empty line, the body. *)
Definition ok_response (body : string) : string :=
  "HTTP/1.1 200 OK" ++ crlf ++
  "Content-Type: text/plain; version=0.0.4; charset=utf-8" ++ crlf ++
  "Content-Length: " ++ to_string (Z.of_nat (String.length body)) ++ crlf ++
  "Connection: close" ++ crlf ++
  crlf ++ body.

(** A token of the request line ends at a space or at the end of the
    line. *)
Fixpoint token (s : string) : string :=
  match s with
  | EmptyString => EmptyString
  | String c rest =>
      if Ascii.eqb c " " || Ascii.eqb c CR || Ascii.eqb c LF then EmptyString
      else String c (token rest)
  end.

(** [needle] occurs somewhere in [text]. *)
Definition contains (text needle : string) : Prop :=
  exists before after, text = before ++ needle ++ after.

(** A GET to the exact path: the request starts with the method and a
    space, and the token that follows is the path itself. *)
Definition get_metrics_request (request : string) : bool :=
  String.prefix "GET " request
  && (token (drop 4 request) =? "/metrics")%string.

(** What the handler looks at when the client has sent [data]: at most 1023
    bytes, up to the first NUL among them. *)
Definition request_text (data : string) : string :=
  c_str (take 1023 data ++ String NUL "").

(** A task handle that [join] can be called on without waiting for ever:
    it is empty, or its thread is not blocked for good. *)
Definition responsive (t : thread entry_point) : bool :=
  match t with
  | Some th => negb (blocked_for_good th)
  | None => true
  end.

(** An exporter as the constructor leaves it: enabled, never started. *)
Definition example_params : overlay_params :=
  mk_overlay_params true "127.0.0.1:9090" 3 1000.

Definition idle_exporter : exporter :=
  mk_exporter true false None None None (-1) false "127.0.0.1" 9090
    MetricsData_default.

(** The same exporter once its sampler thread hangs in the second [lock]
    of its first tick while the listener serves on descriptor 7. *)
Definition hung_exporter : exporter :=
  mk_exporter true false
    (Some (spawn_thread entry_start_delay_timer false))
    (Some (spawn_thread entry_run true))
    (Some 2%nat) 7 false "127.0.0.1" 9090 MetricsData_default.


(** A live source for the examples. *)
Definition example_log : Live.logData :=
  let z := S754_zero false in
  Live.mk_logData double_60 z z z 3200 55 97 60 1800 900 z z z z z.

Definition example_host (sw_stats : option Live.swapchain_stats) : Live.process :=
  Live.mk_process example_log (Live.mk_HudElements sw_stats) "game" 1234 5000.

Definition example_engines (i : N) : string :=
  if (i =? 2)%N then "VULKAN" else "OpenGL".

(** A numeric text, for [strtol]: after white space and one optional sign
    it goes on with a decimal digit. *)
Definition numeric (s : string) : bool :=
  match snd (strip_sign (skip_spaces s)) with
  | String c _ => isdigit c
  | EmptyString => false
  end.

(** *** Vocabulary for the rest of the exporter *)

(** Reading a quoted label value back, as a scraper does: the value ends at
    the first double quote that no backslash precedes; the result is the
    value unescaped and the text after the closing quote.  [pending] tells
    that the character before was an opening backslash. *)
Fixpoint read_quoted (pending : bool) (s : string) : option (string * string) :=
  match s with
  | EmptyString => None
  | String c rest =>
      if pending then
        let c' := if Ascii.eqb c "n" then LF
                  else if Ascii.eqb c "r" then CR
                  else if Ascii.eqb c "t" then TAB
                  else c in
        match read_quoted false rest with
        | Some (value, after) => Some (String c' value, after)
        | None => None
        end
      else if Ascii.eqb c BACKSLASH then read_quoted true rest
      else if Ascii.eqb c DQUOTE then Some (EmptyString, rest)
      else
        match read_quoted false rest with
        | Some (value, after) => Some (String c value, after)
        | None => None
        end
  end.

Definition skip_prefix (expected s : string) : option string :=
  if String.prefix expected s then Some (drop (String.length expected) s)
  else None.

(** Reading a label set back: the three label values, in order, and
    nothing after them. *)
Definition read_labels (labels : string) : option (string * string * string) :=
  match skip_prefix ("process_name=" ++ dq) labels with
  | None => None
  | Some s1 =>
  match read_quoted false s1 with
  | None => None
  | Some (name, s2) =>
  match skip_prefix (",graphics_api=" ++ dq) s2 with
  | None => None
  | Some s3 =>
  match read_quoted false s3 with
  | None => None
  | Some (api, s4) =>
  match skip_prefix (",pid=" ++ dq) s4 with
  | None => None
  | Some s5 =>
  match read_quoted false s5 with
  | Some (pid, EmptyString) => Some (name, api, pid)
  | _ => None
  end end end end end end.

(** The characters that need no escape. *)
Definition plain_char (c : ascii) : bool :=
  negb (Ascii.eqb c BACKSLASH || Ascii.eqb c DQUOTE || Ascii.eqb c LF
        || Ascii.eqb c CR || Ascii.eqb c TAB).

Fixpoint all_plain (s : string) : bool :=
  match s with
  | EmptyString => true
  | String c rest => plain_char c && all_plain rest
  end.

(** Text that [stoi] reads nothing of after a number: it is empty or does
    not start with a digit. *)
Definition no_digit_ahead (tail : string) : bool :=
  match tail with
  | EmptyString => true
  | String c _ => negb (isdigit c)
  end.

Fixpoint all_spaces (s : string) : bool :=
  match s with
  | EmptyString => true
  | String c rest => isspace c && all_spaces rest
  end.



(** What the background threads may change of the exporter between two
    calls of [start] and [stop]: anything but the enabled flag, the bind
    target, and whether a handle owns a thread. *)
Definition background (this this' : exporter) : Prop :=
  enabled_ this' = enabled_ this
  /\ bind_address_ this' = bind_address_ this
  /\ bind_port_ this' = bind_port_ this
  /\ joinable (server_thread_ this') = joinable (server_thread_ this)
  /\ joinable (metrics_thread_ this') = joinable (metrics_thread_ this).

(** The states an exporter goes through: built by the constructor, then
    [start] and [stop] as they return, with the background threads at work
    in between. *)
Inductive reachable : exporter -> Prop :=
| reach_constructed params indeterminate this lg :
    OtelExporter params indeterminate = Ok (this, lg) -> reachable this
| reach_start this this' :
    reachable this -> start this = Returns this' -> reachable this'
| reach_stop this fds this' fds' :
    reachable this -> stop this fds = Returns (this', fds') -> reachable this'
| reach_background this this' :
    reachable this -> background this this' -> reachable this'.

(** The handles go together, a disabled exporter owns no thread, and an
    enabled one has a port to bind. *)
Definition well_formed (this : exporter) : Prop :=
  joinable (server_thread_ this) = joinable (metrics_thread_ this)
  /\ (enabled_ this = false -> joinable (server_thread_ this) = false)
  /\ (enabled_ this = true -> 1 <= bind_port_ this <= 65535).

(** A live source that reports a GPU load of [n] percent. *)
Definition host_with_gpu_load (host : Live.process) (n : Z) : Live.process :=
  let log := Live.currentLogData host in
  Live.mk_process
    (Live.mk_logData (Live.fps log) (Live.frametime log) (Live.cpu_load log)
       (Live.cpu_power log) (Live.cpu_mhz log) (Live.cpu_temp log) n
       (Live.gpu_temp log) (Live.gpu_core_clock log) (Live.gpu_mem_clock log)
       (Live.gpu_power log) (Live.gpu_vram_used log) (Live.ram_used log)
       (Live.swap_used log) (Live.process_rss log))
    (Live.HUDElements host) (Live.get_program_name host) (Live.getpid host)
    (Live.steady_clock_now host).

Definition example_calls : listener_calls := mk_listener_calls 7 0 0 0.

(** The error that matches the first call of the set-up to fail, in the
    order of the calls: [socket], [inet_pton], [bind], [listen]. *)
Definition matching_error (calls : listener_calls) (this : exporter) : server_log :=
  if socket_returns calls <? 0 then error_create_socket
  else if fst (inet_pton (bind_address_ this)) <=? 0
  then error_invalid_bind_address (bind_address_ this)
  else if bind_returns calls <? 0
  then error_bind (bind_address_ this) (bind_port_ this)
  else error_listen.

(** The warning about [SO_REUSEADDR]: logged when a socket was created and
    [setsockopt] failed on it. *)
Definition reuseaddr_warning (calls : listener_calls) : list server_log :=
  if (0 <=? socket_returns calls) && (setsockopt_returns calls <? 0)
  then [warn_reuseaddr] else [].

Definition example_server : server := mk_server idle_exporter [3] [] [].

(** A port part that is a number and nothing else: an optional sign, then
    decimal digits to the end. *)
Definition whole_number (s : string) : bool :=
  let digits :=
    match s with
    | String c rest => if Ascii.eqb c "-" || Ascii.eqb c "+" then rest else s
    | EmptyString => s
    end in
  negb (digits =? "")%string && all_digits digits.

(** The port the resolver settles on, given what [stoi] makes of the port
    part. *)
Definition resolved_port (read : result Z) : Z :=
  match read with
  | Ok v => if (v <? 1) || (65535 <? v) then 16969 else v
  | Throw _ => 16969
  end.

(** *** The handler and the snapshot mutex *)

(** The requests for which the handler calls the renderer: something was
    read, and the text looked at holds GET /metrics. *)
Definition reaches_renderer (c : connection) : bool :=
  match c with
  | conn_error => false
  | conn_bytes data =>
      negb (data =? "")%string
      && match strstr (request_text data) "GET /metrics" with
         | Some _ => true
         | None => false
         end
  end.








(** *** [stop] and a listener that is late *)

(** The exporter right after [start]: both threads run. *)
Definition started_exporter : exporter :=
  mk_exporter true false
    (Some (spawn_thread entry_start_delay_timer false))
    (Some (spawn_thread entry_run false))
    None (-1) false "127.0.0.1" 9090 MetricsData_default.

(** What a listener thread that ended in state [s] has left of the members
    it shares. *)
Definition left_by (s : server) : Threaded.left_behind :=
  Threaded.mk_left_behind (server_socket_ (srv_this s)) (srv_fds s)
    (metrics_mutex_ (srv_this s)) (metrics_updated_ (srv_this s))
    (current_metrics_ (srv_this s)).

(** A pass of the accept loop that finds the stop flag set. *)
Definition stop_seen_poll : poll := mk_poll true 0 false false 0 conn_error 0.

(** *** Reading printed numbers back *)

(** The number that decimal digits spell, continuing from [acc]. *)
Fixpoint digits_value (s : string) (acc : Z) : Z :=
  match s with
  | EmptyString => acc
  | String c rest => digits_value rest (acc * 10 + (code c - 48))
  end.

Definition unsigned_part (text : string) : bool * string :=
  match text with
  | String c rest => if Ascii.eqb c "-" then (true, rest) else (false, text)
  | EmptyString => (false, text)
  end.

(** A printed decimal number read back: whether it has a minus sign, the
    integer that its digits spell when the point is left out, and the
    number of digits after the point.  [None] when the text is not an
    optional minus sign, digits, and optionally a point and digits. *)
Definition read_fixed (text : string) : option (bool * Z * nat) :=
  let (negative, body) := unsigned_part text in
  match find "." body with
  | Some i =>
      let whole := take i body in
      let fraction := drop (S i) body in
      if negb (whole =? "")%string && all_digits whole && all_digits fraction
      then Some (negative, digits_value (whole ++ fraction) 0, String.length fraction)
      else None
  | None =>
      if negb (body =? "")%string && all_digits body
      then Some (negative, digits_value body 0, O)
      else None
  end.

(** [q] is the integer nearest to [n / d], and the even one of the two
    nearest when [n / d] lies half way between them. *)
Definition nearest_even (n d q : Z) : Prop :=
  2 * Z.abs (q * d - n) <= d
  /\ (2 * Z.abs (q * d - n) = d -> Z.even q = true).

(** [q] is the magnitude of [x] times [10^p], rounded to the nearest
    integer, ties to even.  The magnitude of [S754_finite s m e] is
    [m * 2^e]. *)
Definition rounds_to (p : nat) (x : spec_float) (q : Z) : Prop :=
  match x with
  | S754_zero _ => q = 0
  | S754_finite _ m e =>
      if 0 <=? e then q = Zpos m * 2 ^ e * 10 ^ Z.of_nat p
      else nearest_even (Zpos m * 10 ^ Z.of_nat p) (2 ^ (- e)) q
  | S754_infinity _ | S754_nan => False
  end.








(** 16.667 as a [float]: 8738308 * 2^-19. *)
Definition float_16_667 : spec_float := S754_finite false 8738308 (-19).

End Spec.

Import Std OtelExporter Spec.

(* ================================================================= *)
(** ** Strings *)

Section StringFacts.

Lemma append_assoc (a b c : string) : (a ++ b) ++ c = a ++ (b ++ c).
Proof. induction a as [|x a IH]; simpl; [reflexivity | now rewrite IH]. Qed.

Lemma append_nil_r (a : string) : a ++ "" = a.
Proof. induction a as [|x a IH]; simpl; [reflexivity | now rewrite IH]. Qed.

Lemma length_append (a b : string) :
  String.length (a ++ b) = (String.length a + String.length b)%nat.
Proof. induction a as [|x a IH]; simpl; [reflexivity | now rewrite IH]. Qed.

Lemma find_append_none (c : ascii) (a b : string) :
  find c (a ++ b) = None <-> find c a = None /\ find c b = None.
Proof.
  induction a as [|x a IH]; simpl.
  - intuition.
  - destruct (Ascii.eqb x c).
    + split; [discriminate | intros [H _]; discriminate].
    + assert (E : forall o : option nat, option_map S o = None <-> o = None)
        by (intros [k|]; simpl; split; congruence).
      rewrite !E. exact IH.
Qed.

Lemma find_first (c : ascii) (a b : string) :
  find c a = None -> find c (a ++ String c b) = Some (String.length a).
Proof.
  induction a as [|x a IH]; simpl; intros H.
  - now rewrite Ascii.eqb_refl.
  - destruct (Ascii.eqb x c); [discriminate|].
    destruct (find c a); [discriminate|].
    now rewrite IH.
Qed.

Lemma find_lt (c : ascii) (s : string) (n : nat) :
  find c s = Some n -> (n < String.length s)%nat.
Proof.
  revert n; induction s as [|x s IH]; simpl; intros n H; [discriminate|].
  destruct (Ascii.eqb x c).
  - injection H as <-. lia.
  - destruct (find c s) as [k|]; [|discriminate].
    injection H as <-. specialize (IH k eq_refl). lia.
Qed.

Lemma take_length_append (a b : string) : take (String.length a) (a ++ b) = a.
Proof. induction a as [|x a IH]; simpl; [now destruct b | now rewrite IH]. Qed.

Lemma drop_length_append (a b : string) : drop (String.length a) (a ++ b) = b.
Proof. induction a as [|x a IH]; simpl; [reflexivity | exact IH]. Qed.

Lemma take_drop (n : nat) (s : string) : take n s ++ drop n s = s.
Proof.
  revert s; induction n as [|n IH]; intros [|x s]; simpl; try reflexivity.
  now rewrite IH.
Qed.

End StringFacts.

(* ================================================================= *)
(** ** Label escaping *)

Section Escaping.

Lemma escape_loop_result (value result : string) :
  escape_loop value result = result ++ escape_loop value "".
Proof.
  revert result; induction value as [|c rest IH]; intros result; simpl.
  - now rewrite append_nil_r.
  - rewrite IH, (IH (escape_case c)). now rewrite append_assoc.
Qed.

Lemma escape_label_value_cons (c : ascii) (rest : string) :
  escape_label_value (String c rest) = escape_case c ++ escape_label_value rest.
Proof. unfold escape_label_value; simpl. apply escape_loop_result. Qed.

(** An ordinary character is its own escape. *)
Lemma escape_case_other (c : ascii) :
  c = BACKSLASH \/ c = DQUOTE \/ c = LF \/ c = CR \/ c = TAB
  \/ escape_case c = String c "".
Proof.
  unfold escape_case.
  destruct (Ascii.eqb_spec c BACKSLASH); [now left|].
  destruct (Ascii.eqb_spec c DQUOTE); [now right; left|].
  destruct (Ascii.eqb_spec c LF); [now right; right; left|].
  destruct (Ascii.eqb_spec c CR); [now right; right; right; left|].
  destruct (Ascii.eqb_spec c TAB); [now right; right; right; right; left|].
  now right; right; right; right; right.
Qed.

Lemma rescan_escape_case (c : ascii) (tail : string) :
  rescan false (escape_case c ++ tail) = rescan false tail.
Proof.
  unfold escape_case.
  destruct (Ascii.eqb c BACKSLASH) eqn:E1;
    [apply Ascii.eqb_eq in E1; subst; reflexivity|].
  destruct (Ascii.eqb c DQUOTE) eqn:E2;
    [apply Ascii.eqb_eq in E2; subst; reflexivity|].
  destruct (Ascii.eqb c LF) eqn:E3;
    [apply Ascii.eqb_eq in E3; subst; reflexivity|].
  destruct (Ascii.eqb c CR) eqn:E4;
    [apply Ascii.eqb_eq in E4; subst; reflexivity|].
  destruct (Ascii.eqb c TAB) eqn:E5;
    [apply Ascii.eqb_eq in E5; subst; reflexivity|].
  simpl. unfold raw_forbidden. now rewrite E1, E2, E3, E4, E5.
Qed.

Lemma unescape_escape_case (c : ascii) (tail : string) :
  unescape false (escape_case c ++ tail) = String c (unescape false tail).
Proof.
  unfold escape_case.
  destruct (Ascii.eqb c BACKSLASH) eqn:E1;
    [apply Ascii.eqb_eq in E1; subst; reflexivity|].
  destruct (Ascii.eqb c DQUOTE) eqn:E2;
    [apply Ascii.eqb_eq in E2; subst; reflexivity|].
  destruct (Ascii.eqb c LF) eqn:E3;
    [apply Ascii.eqb_eq in E3; subst; reflexivity|].
  destruct (Ascii.eqb c CR) eqn:E4;
    [apply Ascii.eqb_eq in E4; subst; reflexivity|].
  destruct (Ascii.eqb c TAB) eqn:E5;
    [apply Ascii.eqb_eq in E5; subst; reflexivity|].
  simpl. now rewrite E1.
Qed.

(** A raw control character never shows up in the output at all. *)
Lemma find_control_escape_case (x c : ascii) :
  x = LF \/ x = CR \/ x = TAB -> find x (escape_case c) = None.
Proof.
  intros Hx. unfold escape_case.
  destruct (Ascii.eqb c BACKSLASH) eqn:E1;
    [destruct Hx as [-> | [-> | ->]]; reflexivity|].
  destruct (Ascii.eqb c DQUOTE) eqn:E2;
    [destruct Hx as [-> | [-> | ->]]; reflexivity|].
  destruct (Ascii.eqb c LF) eqn:E3;
    [destruct Hx as [-> | [-> | ->]]; reflexivity|].
  destruct (Ascii.eqb c CR) eqn:E4;
    [destruct Hx as [-> | [-> | ->]]; reflexivity|].
  destruct (Ascii.eqb c TAB) eqn:E5;
    [destruct Hx as [-> | [-> | ->]]; reflexivity|].
  simpl. destruct Hx as [-> | [-> | ->]]; now rewrite ?E3, ?E4, ?E5.
Qed.

Lemma find_control_escape_label_value (x : ascii) (value : string) :
  x = LF \/ x = CR \/ x = TAB -> find x (escape_label_value value) = None.
Proof.
  intros Hx. induction value as [|c rest IH]; [reflexivity|].
  rewrite escape_label_value_cons. apply find_append_none.
  split; [now apply find_control_escape_case | exact IH].
Qed.

Lemma rescan_escape_label_value (value : string) :
  rescan false (escape_label_value value) = true.
Proof.
  induction value as [|c rest IH]; [reflexivity|].
  now rewrite escape_label_value_cons, rescan_escape_case.
Qed.

Lemma unescape_escape_label_value (value : string) :
  unescape false (escape_label_value value) = value.
Proof.
  induction value as [|c rest IH]; [reflexivity|].
  now rewrite escape_label_value_cons, unescape_escape_case, IH.
Qed.

End Escaping.

(** C5.  The label escaper is defined on every string; it handles the input
    one character after the other, writes backslash, double quote, newline,
    carriage return and tab as a backslash followed by a backslash, a double
    quote, [n], [r] and [t], and copies every other character.  So the re-scan of the
    output finds no raw double quote, backslash, newline, carriage return or
    tab outside an escaped form (the three control characters do not occur
    in the output at all), and the input can be read back from it. *)
Theorem escape_label_value_total_and_clean :
  escape_label_value "" = ""
  /\ (forall c rest,
        escape_label_value (String c rest) = escape_case c ++ escape_label_value rest)
  /\ escape_case BACKSLASH = String BACKSLASH (String BACKSLASH "")
  /\ escape_case DQUOTE = String BACKSLASH (String DQUOTE "")
  /\ escape_case LF = String BACKSLASH "n"
  /\ escape_case CR = String BACKSLASH "r"
  /\ escape_case TAB = String BACKSLASH "t"
  /\ (forall c, c = BACKSLASH \/ c = DQUOTE \/ c = LF \/ c = CR \/ c = TAB
                \/ escape_case c = String c "")
  /\ (forall value, rescan false (escape_label_value value) = true)
  /\ (forall value, find LF (escape_label_value value) = None
                    /\ find CR (escape_label_value value) = None
                    /\ find TAB (escape_label_value value) = None)
  /\ (forall value, unescape false (escape_label_value value) = value).
Proof.
  repeat split; try reflexivity.
  - apply escape_label_value_cons.
  - apply escape_case_other.
  - apply rescan_escape_label_value.
  - apply find_control_escape_label_value; auto.
  - apply find_control_escape_label_value; auto.
  - apply find_control_escape_label_value; auto.
  - apply unescape_escape_label_value.
Qed.

(* ================================================================= *)
(** ** Decimal numerals and [stoi] *)

Section Numerals.

(** The digit loop on the digits of a numeral, once a non-zero digit has
    been read. *)
Lemma scan_digits_step (c : ascii) (k : Z) (s : string) (acc : Z) (any : bool) :
  digit_of c = Some k ->
  scan_digits (String c s) acc any = scan_digits s (acc * 10 + k) true.
Proof. intros H; simpl. now rewrite H. Qed.

Lemma scan_digits_of_uint_acc (d : uint) (acc : positive) :
  scan_digits (NilEmpty.string_of_uint d) (Zpos acc) true
  = Some (Zpos (Pos.of_uint_acc d acc)).
Proof.
  revert acc; induction d; intros acc;
    cbn [NilEmpty.string_of_uint Pos.of_uint_acc]; try reflexivity;
    (erewrite scan_digits_step by reflexivity);
    match goal with
    | |- context [code ?c - 48] =>
        let k := eval vm_compute in (code c - 48) in
        change (code c - 48) with k
    end;
    match goal with
    | |- scan_digits _ ?v true = Some (Zpos (Pos.of_uint_acc _ ?a)) =>
        replace v with (Zpos a) by lia; apply IHd
    end.
Qed.

Lemma scan_digits_of_uint (d : uint) (any : bool) (q : positive) :
  Pos.of_uint d = Npos q ->
  scan_digits (NilEmpty.string_of_uint d) 0 any = Some (Zpos q).
Proof.
  revert any; induction d; intros any H; simpl in *;
    try discriminate;
    try (injection H as <-; apply (scan_digits_of_uint_acc d)).
  now apply IHd.
Qed.

Lemma string_of_uint_head (d : uint) :
  d <> Nil ->
  skip_spaces (NilEmpty.string_of_uint d) = NilEmpty.string_of_uint d
  /\ strip_sign (NilEmpty.string_of_uint d) = (false, NilEmpty.string_of_uint d).
Proof. destruct d; intros H; try (now split); congruence. Qed.

Lemma to_string_pos (p : positive) :
  to_string (Zpos p) = NilEmpty.string_of_uint (Pos.to_uint p).
Proof.
  unfold to_string; simpl. unfold NilZero.string_of_uint.
  pose proof (Unsigned.to_uint_nonnil p) as H.
  destruct (Pos.to_uint p); congruence.
Qed.

(** Reading back a printed positive [int] gives the number printed. *)
Lemma stoi_to_string (p : Z) :
  1 <= p <= INT_MAX -> stoi (to_string p) = Ok p.
Proof.
  intros Hp. destruct p as [|p|p]; try lia.
  rewrite to_string_pos. unfold stoi.
  destruct (string_of_uint_head (Pos.to_uint p) (Unsigned.to_uint_nonnil p)) as [-> ->].
  rewrite (scan_digits_of_uint _ false p (Unsigned.of_to p)).
  unfold INT_MAX, INT_MIN in *.
  destruct (Z.ltb_spec (Zpos p) (-2147483648)); [lia|].
  destruct (Z.ltb_spec 2147483647 (Zpos p)); [lia|]. reflexivity.
Qed.

Lemma scan_digits_any (s : string) (acc : Z) :
  exists v, scan_digits s acc true = Some v.
Proof.
  revert acc; induction s as [|c s IH]; intros acc; simpl; [now exists acc|].
  destruct (digit_of c); [apply IH | now exists acc].
Qed.

(** [stoi] throws [invalid_argument] exactly on the texts that are not
    numeric. *)
Lemma stoi_not_numeric (s : string) :
  numeric s = false <-> stoi s = Throw invalid_argument.
Proof.
  unfold numeric, stoi.
  destruct (strip_sign (skip_spaces s)) as [negative digits]. simpl snd.
  destruct digits as [|c rest]; simpl; [now split|].
  unfold isdigit. destruct (digit_of c) as [d|]; [|now split].
  destruct (scan_digits_any rest d) as [v ->].
  split; [discriminate|].
  destruct ((_ <? INT_MIN) || (INT_MAX <? _)); discriminate.
Qed.

Example stoi_examples :
  stoi "8080" = Ok 8080
  /\ stoi "  +0042xyz" = Ok 42
  /\ stoi "-12" = Ok (-12)
  /\ stoi "http" = Throw invalid_argument
  /\ stoi "" = Throw invalid_argument
  /\ stoi "-" = Throw invalid_argument
  /\ stoi "2147483648" = Throw out_of_range
  /\ stoi "2147483647" = Ok 2147483647.
Proof. repeat split. Qed.

Example to_string_examples :
  to_string 0 = "0" /\ to_string 1234 = "1234" /\ to_string (-15) = "-15".
Proof. repeat split. Qed.

Lemma digit_is_no_space_or_sign (c : ascii) :
  isdigit c = true ->
  isspace c = false /\ Ascii.eqb c "-" = false /\ Ascii.eqb c "+" = false.
Proof.
  destruct c as [[] [] [] [] [] [] [] []]; intros H;
    try discriminate H; repeat split.
Qed.

Lemma whole_number_numeric (s : string) :
  whole_number s = true -> numeric s = true.
Proof.
  unfold whole_number, numeric. destruct s as [|c rest]; [discriminate|].
  destruct (Ascii.eqb c "-" || Ascii.eqb c "+") eqn:E.
  - intros H. apply andb_prop in H. destruct H as [Hn Hd].
    assert (Hc : c = "-"%char \/ c = "+"%char).
    { apply orb_prop in E. destruct E as [E|E]; apply Ascii.eqb_eq in E; auto. }
    destruct rest as [|d rest]; [discriminate|].
    cbn [all_digits] in Hd. apply andb_prop in Hd. destruct Hd as [Hd _].
    destruct Hc as [-> | ->]; cbn; exact Hd.
  - intros H. apply andb_prop in H. destruct H as [_ Hd].
    cbn [all_digits] in Hd. apply andb_prop in Hd. destruct Hd as [Hd _].
    destruct (digit_is_no_space_or_sign c Hd) as [A [B C]].
    cbn [skip_spaces]. rewrite A. cbn [strip_sign]. rewrite B, C. exact Hd.
Qed.

End Numerals.

(* ================================================================= *)
(** ** Bind address resolver *)

Section BindAddress.

Lemma port_of_range (port_str : string) :
  1 <= fst (port_of port_str) <= 65535.
Proof.
  unfold port_of, try_catch, bind, default_port, static_cast_uint16.
  destruct (stoi port_str) as [v|e]; simpl; [|lia].
  destruct (Z.ltb_spec v 1); simpl; [lia|].
  destruct (Z.ltb_spec 65535 v); simpl; [lia|].
  rewrite Z.mod_small; lia.
Qed.

Lemma port_of_valid (port_str : string) (p : Z) :
  stoi port_str = Ok p -> 1 <= p <= 65535 -> port_of port_str = (p, []).
Proof.
  intros H Hp. unfold port_of, try_catch, bind, static_cast_uint16. rewrite H.
  destruct (Z.ltb_spec p 1); [lia|].
  destruct (Z.ltb_spec 65535 p); [lia|]. simpl.
  rewrite Z.mod_small; [reflexivity | lia].
Qed.

Lemma port_of_thrown (port_str : string) (e : exception) :
  stoi port_str = Throw e ->
  port_of port_str = (16969, [error_parse_port port_str]).
Proof. intros H. unfold port_of, try_catch, bind. now rewrite H. Qed.

Lemma port_of_outside (port_str : string) (v : Z) :
  stoi port_str = Ok v -> v < 1 \/ 65535 < v ->
  port_of port_str = (16969, [error_invalid_port v]).
Proof.
  intros H Hv. unfold port_of, try_catch, bind. rewrite H.
  destruct (Z.ltb_spec v 1); [reflexivity|].
  destruct (Z.ltb_spec 65535 v); [reflexivity | lia].
Qed.

(** The resolver never throws, and its result is made of the two parts of
    the input. *)
Lemma parse_bind_address_parts (input : string) :
  parse_bind_address input
  = Ok (mk_bind_target (host_part input) (fst (port_of (port_part input)))
          (snd (port_of (port_part input)) ++ validate_address (host_part input))).
Proof.
  unfold parse_bind_address, host_part, port_part.
  destruct (find ":" input) as [n|] eqn:E.
  - pose proof (find_lt _ _ _ E) as Hn.
    unfold substr, substr_from, bind.
    destruct (Nat.ltb_spec (String.length input) 0); [lia|].
    destruct (Nat.ltb_spec (String.length input) (n + 1)); [lia|].
    simpl drop at 1. now destruct (port_of (drop (n + 1) input)).
  - now destruct (port_of input).
Qed.

Lemma parts_of_host_colon_port (host port_str : string) :
  find ":" host = None ->
  host_part (host ++ ":" ++ port_str) = host
  /\ port_part (host ++ ":" ++ port_str) = port_str.
Proof.
  intros H. unfold host_part, port_part.
  change (host ++ ":" ++ port_str) with (host ++ String ":" port_str).
  rewrite (find_first ":" host port_str H). split.
  - apply take_length_append.
  - replace (String.length host + 1)%nat with (S (String.length host)) by lia.
    clear H. induction host as [|x host IH]; simpl; [reflexivity | exact IH].
Qed.

(** The split is at the first colon, and [stoi] reads a leading number and
    ignores what follows it. *)
Example parse_bind_address_examples :
  parse_bind_address "127.0.0.1:8080" = Ok (mk_bind_target "127.0.0.1" 8080 [])
  /\ parse_bind_address "9090" = Ok (mk_bind_target "0.0.0.0" 9090 [])
  /\ parse_bind_address "example.org:80"
     = Ok (mk_bind_target "example.org" 80 [warn_address_format "example.org"])
  /\ parse_bind_address "localhost:80 tcp" = Ok (mk_bind_target "localhost" 80 [])
  /\ parse_bind_address "[::1]:8080"
     = Ok (mk_bind_target "[" 16969
             [error_parse_port ":1]:8080"; warn_address_format "["])
  /\ parse_bind_address "foo:70000"
     = Ok (mk_bind_target "foo" 16969
             [error_invalid_port 70000; warn_address_format "foo"])
  /\ parse_bind_address ""
     = Ok (mk_bind_target "0.0.0.0" 16969 [error_parse_port ""]).
Proof. repeat split. Qed.

End BindAddress.

(** C3.  A bind string [host:port], split at its first colon, whose port
    part [stoi] reads as an integer of 1..65535 resolves to that host and
    that integer, with nothing but the possible address-format warning
    logged; a bind string without a colon that [stoi] reads as such an
    integer resolves to 0.0.0.0 and that integer.  In particular this holds
    for the decimal numeral of every port of 1..65535. *)
Theorem parse_bind_address_valid :
  (forall host port_str p,
      find ":" host = None -> stoi port_str = Ok p -> 1 <= p <= 65535 ->
      parse_bind_address (host ++ ":" ++ port_str)
      = Ok (mk_bind_target host p (validate_address host)))
  /\ (forall input p,
      find ":" input = None -> stoi input = Ok p -> 1 <= p <= 65535 ->
      parse_bind_address input = Ok (mk_bind_target "0.0.0.0" p []))
  /\ (forall host p,
      find ":" host = None -> 1 <= p <= 65535 ->
      parse_bind_address (host ++ ":" ++ to_string p)
      = Ok (mk_bind_target host p (validate_address host))
      /\ parse_bind_address (to_string p) = Ok (mk_bind_target "0.0.0.0" p [])).
Proof.
  assert (A : forall host port_str p,
      find ":" host = None -> stoi port_str = Ok p -> 1 <= p <= 65535 ->
      parse_bind_address (host ++ ":" ++ port_str)
      = Ok (mk_bind_target host p (validate_address host))).
  { intros host port_str p Hh Hs Hp.
    rewrite parse_bind_address_parts.
    destruct (parts_of_host_colon_port host port_str Hh) as [-> ->].
    now rewrite (port_of_valid _ _ Hs Hp). }
  assert (B : forall input p,
      find ":" input = None -> stoi input = Ok p -> 1 <= p <= 65535 ->
      parse_bind_address input = Ok (mk_bind_target "0.0.0.0" p [])).
  { intros input p Hh Hs Hp.
    rewrite parse_bind_address_parts. unfold host_part, port_part.
    rewrite Hh. now rewrite (port_of_valid _ _ Hs Hp). }
  split; [exact A|]. split; [exact B|].
  intros host p Hh Hp.
  assert (Hs : stoi (to_string p) = Ok p)
    by (apply stoi_to_string; unfold INT_MAX; lia).
  split; [now apply A|]. apply B; trivial.
  destruct p as [|p|p]; try lia. rewrite to_string_pos.
  generalize (Pos.to_uint p). intros d; induction d; simpl; trivial;
    now rewrite IHd.
Qed.

Lemma parse_bind_address_valid_witness :
  parse_bind_address ("127.0.0.1" ++ ":" ++ "8080")
  = Ok (mk_bind_target "127.0.0.1" 8080 (validate_address "127.0.0.1"))
  /\ parse_bind_address "9090" = Ok (mk_bind_target "0.0.0.0" 9090 [])
  /\ parse_bind_address ("localhost" ++ ":" ++ to_string 65535)
     = Ok (mk_bind_target "localhost" 65535 (validate_address "localhost")).
Proof.
  destruct parse_bind_address_valid as [A [B C]].
  split; [|split].
  - apply (A "127.0.0.1" "8080" 8080); [reflexivity | reflexivity | lia].
  - apply (B "9090" 9090); [reflexivity | reflexivity | lia].
  - apply (C "localhost" 65535); [reflexivity | lia].
Defined.

(** C4 as it is worded fails.  The port part 80abc is not a number, yet the
    resolver reads the 80 at its start and yields port 80, not 16969, and
    logs nothing; so it does for 1.5 and 12:34, which give 1 and 12.  And
    the address is not always usable: for the input :8080 it is empty, and
    the listener, once it has its socket, refuses the address and gives
    up. *)
Lemma parse_bind_address_counterexample :
  (whole_number (port_part "0.0.0.0:80abc") = false
   /\ numeric (port_part "0.0.0.0:80abc") = true
   /\ parse_bind_address "0.0.0.0:80abc" = Ok (mk_bind_target "0.0.0.0" 80 [])
   /\ 80 <> 16969)
  /\ parse_bind_address "0.0.0.0:1.5" = Ok (mk_bind_target "0.0.0.0" 1 [])
  /\ parse_bind_address "0.0.0.0:12:34" = Ok (mk_bind_target "0.0.0.0" 12 [])
  /\ (parse_bind_address ":8080" = Ok (mk_bind_target "" 8080 [])
      /\ fst (inet_pton "") = 0
      /\ setup_http_server example_calls []
           (mk_server (set_bind "" 8080 idle_exporter) [3] [] [])
         = Returns (loop_exit,
                    mk_server (set_bind "" 8080 idle_exporter) [3] []
                      [error_invalid_bind_address ""])).
Proof.
  split; [|split; [|split]].
  - repeat split. discriminate.
  - reflexivity.
  - reflexivity.
  - repeat split.
Qed.

(** C4, as the code has it.  Resolution never throws and always yields a
    port of 1..65535 together with an address: the text before the first
    colon, or 0.0.0.0 when there is no colon.  The port is decided by what
    [stoi] makes of the port part, and [stoi] reads a number at its start
    (after white space and a sign) and ignores what follows: the port is
    16969 when the port part does not start with a number, when that number
    does not fit [int], and when it lies outside 1..65535; it is the number
    itself when that lies in 1..65535, whatever follows it.  A port part
    that is a number and nothing else is read as that number. *)
Theorem parse_bind_address_fallback (input : string) :
  exists target,
    parse_bind_address input = Ok target
    /\ address target = host_part input
    /\ 1 <= port target <= 65535
    /\ (numeric (port_part input) = false -> port target = 16969)
    /\ ((exists e, stoi (port_part input) = Throw e) -> port target = 16969)
    /\ (forall v, stoi (port_part input) = Ok v -> v < 1 \/ 65535 < v ->
                  port target = 16969)
    /\ (forall v, stoi (port_part input) = Ok v -> 1 <= v <= 65535 ->
                  port target = v)
    /\ port target = resolved_port (stoi (port_part input))
    /\ (numeric (port_part input) = false
        <-> stoi (port_part input) = Throw invalid_argument)
    /\ (whole_number (port_part input) = true ->
        numeric (port_part input) = true).
Proof.
  eexists. split; [apply parse_bind_address_parts|]. simpl.
  split; [reflexivity|]. split; [apply port_of_range|].
  split; [|split; [|split; [|split; [|split; [|split]]]]].
  - intros H. apply stoi_not_numeric in H. now rewrite (port_of_thrown _ _ H).
  - intros [e He]. now rewrite (port_of_thrown _ _ He).
  - intros v Hv Hr. now rewrite (port_of_outside _ _ Hv Hr).
  - intros v Hv Hr. now rewrite (port_of_valid _ _ Hv Hr).
  - unfold resolved_port.
    destruct (stoi (port_part input)) as [v|e] eqn:E.
    + destruct (Z.ltb_spec v 1) as [L|L]; cbn [orb].
      * now rewrite (port_of_outside _ _ E (or_introl L)).
      * destruct (Z.ltb_spec 65535 v) as [G|G].
        -- now rewrite (port_of_outside _ _ E (or_intror G)).
        -- now rewrite (port_of_valid _ _ E (conj L G)).
    + now rewrite (port_of_thrown _ _ E).
  - apply stoi_not_numeric.
  - apply whole_number_numeric.
Qed.

Lemma parse_bind_address_fallback_witness :
  (exists target, parse_bind_address "localhost:http" = Ok target
                  /\ port target = 16969)
  /\ (exists target, parse_bind_address "0.0.0.0:99999999999" = Ok target
                     /\ port target = 16969)
  /\ (exists target, parse_bind_address "0.0.0.0:70000" = Ok target
                     /\ port target = 16969)
  /\ (exists target, parse_bind_address "0" = Ok target
                     /\ port target = 16969)
  /\ (exists target, parse_bind_address "0.0.0.0:80abc" = Ok target
                     /\ port target = 80).
Proof.
  split; [|split; [|split; [|split]]].
  - destruct (parse_bind_address_fallback "localhost:http")
      as [target [H [_ [_ [Hn _]]]]].
    exists target. split; [exact H|].
    apply Hn. reflexivity.
  - destruct (parse_bind_address_fallback "0.0.0.0:99999999999")
      as [target [H [_ [_ [_ [Ht _]]]]]].
    exists target. split; [exact H|].
    apply Ht. exists out_of_range. reflexivity.
  - destruct (parse_bind_address_fallback "0.0.0.0:70000")
      as [target [H [_ [_ [_ [_ [Hv _]]]]]]].
    exists target. split; [exact H|].
    apply (Hv 70000); [reflexivity | right; lia].
  - destruct (parse_bind_address_fallback "0")
      as [target [H [_ [_ [_ [_ [Hv _]]]]]]].
    exists target. split; [exact H|].
    apply (Hv 0); [reflexivity | left; lia].
  - destruct (parse_bind_address_fallback "0.0.0.0:80abc")
      as [target [H [_ [_ [_ [_ [_ [Hv _]]]]]]]].
    exists target. split; [exact H|].
    apply (Hv 80); [reflexivity | lia].
Defined.

(* ================================================================= *)
(** ** Printed numbers *)

#[local] Arguments digit_char : simpl never.
#[local] Arguments scaled : simpl never.
#[local] Arguments Z.pow : simpl never.
#[local] Arguments Z.div : simpl never.
#[local] Arguments Z.modulo : simpl never.

Section Numbers.

Lemma all_digits_append (a b : string) :
  all_digits (a ++ b) = all_digits a && all_digits b.
Proof.
  induction a as [|x a IH]; simpl; [reflexivity|].
  now rewrite IH, andb_assoc.
Qed.

Lemma all_digits_no_lf (s : string) : all_digits s = true -> find LF s = None.
Proof.
  induction s as [|x s IH]; simpl; [reflexivity|].
  intros H. apply andb_prop in H. destruct H as [Hx Hs].
  destruct (Ascii.eqb_spec x LF) as [->|_]; [discriminate|].
  now rewrite (IH Hs).
Qed.

Lemma all_digits_string_of_uint (d : uint) :
  all_digits (NilEmpty.string_of_uint d) = true.
Proof. induction d; simpl; trivial. Qed.

Lemma string_of_uint_nonempty (d : uint) :
  d <> Nil -> NilEmpty.string_of_uint d <> "".
Proof. destruct d; simpl; congruence. Qed.

Lemma to_string_nonneg (z : Z) :
  0 <= z -> to_string z <> "" /\ all_digits (to_string z) = true.
Proof.
  intros Hz. destruct z as [|p|p]; try lia.
  - split; [discriminate | reflexivity].
  - rewrite to_string_pos. split.
    + apply string_of_uint_nonempty, Unsigned.to_uint_nonnil.
    + apply all_digits_string_of_uint.
Qed.

Lemma to_string_neg (p : positive) :
  to_string (Zneg p) = "-" ++ to_string (Zpos p).
Proof.
  rewrite to_string_pos. unfold to_string; simpl. unfold NilZero.string_of_uint.
  pose proof (Unsigned.to_uint_nonnil p) as H.
  destruct (Pos.to_uint p); congruence.
Qed.


Lemma isdigit_digit_char (n : Z) : isdigit (digit_char (n mod 10)) = true.
Proof.
  pose proof (Z.mod_pos_bound n 10 ltac:(lia)) as H.
  assert (E : n mod 10 = 0 \/ n mod 10 = 1 \/ n mod 10 = 2 \/ n mod 10 = 3
              \/ n mod 10 = 4 \/ n mod 10 = 5 \/ n mod 10 = 6 \/ n mod 10 = 7
              \/ n mod 10 = 8 \/ n mod 10 = 9) by lia.
  repeat (destruct E as [-> | E]; [reflexivity|]). now rewrite E.
Qed.

Lemma fraction_digits_shape (p : nat) (n : Z) :
  all_digits (fraction_digits p n) = true
  /\ String.length (fraction_digits p n) = p.
Proof.
  revert n; induction p as [|p IH]; intros n; simpl; [now split|].
  destruct (IH (n / 10)) as [A B]. split.
  - rewrite all_digits_append, A. cbn [all_digits andb].
    now rewrite isdigit_digit_char.
  - rewrite length_append, B. simpl. lia.
Qed.

Lemma round_half_even_nonneg (n d : Z) :
  0 <= n -> 0 < d -> 0 <= round_half_even n d.
Proof.
  intros Hn Hd. unfold round_half_even.
  assert (0 <= n / d) by (apply Z.div_pos; lia).
  destruct (2 * (n mod d) ?= d); [destruct (Z.even (n / d))| |]; lia.
Qed.

Lemma scaled_nonneg (p : nat) (m : positive) (e : Z) : 0 <= scaled p m e.
Proof.
  unfold scaled.
  assert (0 < 10 ^ Z.of_nat p) by (apply Z.pow_pos_nonneg; lia).
  destruct (Z.leb_spec 0 e).
  - assert (0 < 2 ^ e) by (apply Z.pow_pos_nonneg; lia). nia.
  - apply round_half_even_nonneg; [nia|]. apply Z.pow_pos_nonneg; lia.
Qed.



Lemma find_lf_to_string (z : Z) : find LF (to_string z) = None.
Proof.
  destruct z as [|p|p]; [reflexivity| |].
  - apply all_digits_no_lf, to_string_nonneg. lia.
  - rewrite to_string_neg. apply find_append_none. split; [reflexivity|].
    apply all_digits_no_lf, to_string_nonneg. lia.
Qed.

Lemma find_lf_fixed_digits (p : nat) (q : Z) :
  0 <= q -> find LF (fixed_digits p q) = None.
Proof.
  intros Hq. unfold fixed_digits. apply find_append_none. split.
  - apply find_lf_to_string.
  - destruct p as [|p]; [reflexivity|].
    apply find_append_none. split; [reflexivity|].
    apply all_digits_no_lf, (fraction_digits_shape (S p) q).
Qed.

Lemma find_lf_format_fixed (p : nat) (x : spec_float) :
  find LF (format_fixed p x) = None.
Proof.
  destruct x as [s|s| |s m e]; simpl.
  - apply find_append_none. split; [now destruct s|].
    now apply find_lf_fixed_digits.
  - now destruct s.
  - reflexivity.
  - apply find_append_none. split; [now destruct s|].
    apply find_lf_fixed_digits, scaled_nonneg.
Qed.

(** 16.667 and 23.4 as [float]s are 8738308 * 2^-19 and 12268339 * 2^-19;
    0.125 printed with two decimals is a tie, which goes to the even
    digit. *)
Example format_fixed_examples :
  format_fixed 2 double_60 = "60.00"
  /\ format_fixed 3 (S754_finite false 8738308 (-19)) = "16.667"
  /\ format_fixed 1 (S754_finite false 12268339 (-19)) = "23.4"
  /\ format_fixed 2 (S754_finite false 1 (-3)) = "0.12"
  /\ format_fixed 1 (S754_finite true 1 (-5)) = "-0.0"
  /\ format_fixed 1 (float_of_int 97) = "97.0"
  /\ format_fixed 3 (S754_zero false) = "0.000"
  /\ format_fixed 3 (S754_infinity true) = "-inf".
Proof. repeat split. Qed.

Example double_60_is_60 :
  valid_binary 53 1024 double_60 = true
  /\ 8444249301319680 = 60 * 2 ^ 47.
Proof. split; reflexivity. Qed.

End Numbers.

(* ================================================================= *)
(** ** Printed numbers read back *)

Section ReadingBack.












(** [round_half_even] gives the nearest integer, the even one at a tie. *)
Lemma round_half_even_nearest (n d : Z) :
  0 < d -> nearest_even n d (round_half_even n d).
Proof.
  intros Hd. unfold nearest_even, round_half_even.
  pose proof (Z.div_mod n d ltac:(lia)) as E.
  pose proof (Z.mod_pos_bound n d Hd) as B.
  destruct (Z.compare_spec (2 * (n mod d)) d) as [T|L|G].
  - destruct (Z.even (n / d)) eqn:Ev.
    + split; [|auto]. nia.
    + split; [nia|]. intros _.
      rewrite Z.even_add, Ev. reflexivity.
  - split; [nia|]. intros H. exfalso. nia.
  - split; [nia|]. intros H. exfalso. nia.
Qed.

Lemma scaled_rounds_to (p : nat) (s : bool) (m : positive) (e : Z) :
  rounds_to p (S754_finite s m e) (scaled p m e).
Proof.
  unfold rounds_to, scaled. destruct (0 <=? e) eqn:E; [reflexivity|].
  apply round_half_even_nearest. apply Z.pow_pos_nonneg; lia.
Qed.







End ReadingBack.

(* ================================================================= *)
(** ** Exposition renderer *)

Section Renderer.

(** The insertions of [generate_metrics], regrouped stanza by stanza. *)
Lemma generate_metrics_document (cm : MetricsData) (now : Z) :
  generate_metrics cm now
  = document (label_set cm) (to_string now) (metric_families cm).
Proof.
  unfold generate_metrics, metric_families.
  fold (label_set cm).
  cbv [put insert_text insert_string insert_integer insert_fixed
       fx_precision fx_value document stanza help_line type_line sample_line
       family_name family_help family_value].
  generalize (label_set cm) (to_string now).
  intros labels ts.
  repeat rewrite append_assoc.
  reflexivity.
Qed.

Lemma find_lf_label_set (cm : MetricsData) : find LF (label_set cm) = None.
Proof.
  unfold label_set.
  repeat (apply find_append_none; split);
    try reflexivity;
    try (apply find_control_escape_label_value; now left);
    apply find_lf_to_string.
Qed.

Lemma is_line_help_line (f : family) :
  find LF (family_name f) = None -> find LF (family_help f) = None ->
  is_line (help_line f).
Proof.
  intros Hn Hh. exists ("# HELP " ++ family_name f ++ " " ++ family_help f).
  split.
  - unfold help_line. now rewrite !append_assoc.
  - repeat (apply find_append_none; split); trivial.
Qed.

Lemma is_line_type_line (f : family) :
  find LF (family_name f) = None -> is_line (type_line f).
Proof.
  intros Hn. exists ("# TYPE " ++ family_name f ++ " gauge").
  split.
  - unfold type_line. now rewrite !append_assoc.
  - repeat (apply find_append_none; split); trivial.
Qed.

Lemma is_line_sample_line (labels ts : string) (f : family) :
  find LF (family_name f) = None -> find LF labels = None ->
  find LF (family_value f) = None -> find LF ts = None ->
  is_line (sample_line labels ts f).
Proof.
  intros Hn Hl Hv Ht.
  exists (family_name f ++ "{" ++ labels ++ "} " ++ family_value f ++ " " ++ ts).
  split.
  - unfold sample_line. now rewrite !append_assoc.
  - repeat (apply find_append_none; split); trivial.
Qed.

Lemma metric_families_lines (cm : MetricsData) (now : Z) :
  Forall (fun f => is_line (help_line f) /\ is_line (type_line f)
                   /\ is_line (sample_line (label_set cm) (to_string now) f))
         (metric_families cm).
Proof.
  unfold metric_families.
  repeat (apply Forall_cons;
          [ split; [|split];
            [ now apply is_line_help_line
            | now apply is_line_type_line
            | apply is_line_sample_line;
              [ reflexivity
              | apply find_lf_label_set
              | simpl; first [apply find_lf_format_fixed | apply find_lf_to_string]
              | apply find_lf_to_string ] ]
          | ]).
  apply Forall_nil.
Qed.


End Renderer.

(** C2.  For every snapshot and every reading [now] of the clock the
    rendered text is the document of 15 stanzas, one per metric in the order
    fps, frametime_ms, cpu_load_percent, cpu_power_watts, cpu_frequency_mhz,
    cpu_temperature_celsius, gpu_load_percent, gpu_temperature_celsius,
    gpu_core_clock_mhz, gpu_memory_clock_mhz, gpu_power_watts,
    gpu_vram_used_gb, ram_used_gb, swap_used_gb, process_rss_gb (exported
    under the prefix mangohud_).  Each stanza is a HELP line, a TYPE line
    that declares a gauge, and one sample line, each of them a single line;
    all sample lines are built from the same label set and the same
    timestamp, the decimal text of [now]. *)
Theorem generate_metrics_stanzas (cm : MetricsData) (now : Z) :
  generate_metrics cm now
  = document (label_set cm) (to_string now) (metric_families cm)
  /\ List.length (metric_families cm) = 15%nat
  /\ map family_name (metric_families cm) = map exported_name metric_names
  /\ Forall (fun f =>
               is_line (help_line f)
               /\ is_line (type_line f)
               /\ is_line (sample_line (label_set cm) (to_string now) f))
            (metric_families cm).
Proof.
  split; [apply generate_metrics_document|].
  split; [reflexivity|]. split; [reflexivity|].
  apply metric_families_lines.
Qed.

(** The nearest integer with ties to even is one integer only, so
    [rounds_to] fixes the digits that are printed. *)
Lemma nearest_even_unique (n d q q' : Z) :
  0 < d -> nearest_even n d q -> nearest_even n d q' -> q = q'.
Proof.
  intros Hd [A B] [A' B'].
  assert (C : q = q' \/ q = q' + 1 \/ q' = q + 1) by nia.
  destruct C as [C | [C | C]]; [exact C | |]; exfalso.
  - assert (T : 2 * Z.abs (q * d - n) = d) by nia.
    assert (T' : 2 * Z.abs (q' * d - n) = d) by nia.
    specialize (B T). specialize (B' T').
    rewrite C, Z.even_add, B' in B. discriminate.
  - assert (T : 2 * Z.abs (q * d - n) = d) by nia.
    assert (T' : 2 * Z.abs (q' * d - n) = d) by nia.
    specialize (B T). specialize (B' T').
    rewrite C, Z.even_add, B in B'. discriminate.
Qed.




(** The frame time 16.667, a [float], is printed with three decimals as
    16.667, and those digits are its value rounded to three decimals. *)
Example frametime_is_printed_rounded :
  format_fixed 3 float_16_667 = "16.667"
  /\ read_fixed "16.667" = Some (false, 16667, 3%nat)
  /\ rounds_to 3 float_16_667 16667
  /\ ~ rounds_to 3 float_16_667 16668.
Proof.
  split; [reflexivity|]. split; [reflexivity|]. split.
  - change 16667 with (scaled 3 8738308 (-19)) at 1. apply scaled_rounds_to.
  - intros H.
    pose proof (scaled_rounds_to 3 false 8738308 (-19)) as G.
    unfold rounds_to, float_16_667 in *. cbn [Z.leb Z.compare] in *.
    assert (D : 0 < 2 ^ (- (-19))) by reflexivity.
    assert (E := nearest_even_unique _ _ _ _ D H G).
    vm_compute in E. discriminate.
Qed.

(* ================================================================= *)
(** ** HTTP responder *)

Section Responder.

Lemma prefix_append (a b : string) :
  String.prefix a b = true <-> exists rest, b = a ++ rest.
Proof.
  revert b; induction a as [|x a IH]; intros b.
  - destruct b; simpl; split; eauto.
  - destruct b as [|y b]; simpl.
    + split; [discriminate | intros [r H]; discriminate].
    + destruct (ascii_dec x y) as [->|N].
      * split.
        -- intros H. apply IH in H. destruct H as [r ->]. now exists r.
        -- intros [r H]. apply IH. exists r. congruence.
      * split; [discriminate | intros [r H]; congruence].
Qed.

Lemma strstr_unfold (haystack needle : string) :
  strstr haystack needle
  = if String.prefix needle haystack then Some O
    else match haystack with
         | EmptyString => None
         | String _ rest => option_map S (strstr rest needle)
         end.
Proof. destruct haystack; reflexivity. Qed.

(** [strstr] finds the needle exactly when it occurs somewhere. *)
Lemma strstr_contains (haystack needle : string) :
  strstr haystack needle <> None <-> contains haystack needle.
Proof.
  split.
  - induction haystack as [|c rest IH]; rewrite strstr_unfold;
      destruct (String.prefix needle _) eqn:P; intros H.
    + apply prefix_append in P. destruct P as [r ->]. now exists "", r.
    + congruence.
    + apply prefix_append in P. destruct P as [r ->]. now exists "", r.
    + destruct (strstr rest needle) eqn:E; [|simpl in H; congruence].
      destruct IH as [b [a ->]]; [congruence|].
      now exists (String c b), a.
  - intros [before [after ->]].
    induction before as [|c before IH]; rewrite strstr_unfold.
    + replace (String.prefix needle ("" ++ needle ++ after)) with true;
        [discriminate|].
      symmetry. apply prefix_append. now exists after.
    + destruct (String.prefix needle _); [discriminate|].
      simpl. destruct (strstr (before ++ needle ++ after) needle);
        [discriminate | contradiction].
Qed.

Lemma take_append_le (n : nat) (a b : string) :
  (String.length a <= n)%nat ->
  take n (a ++ b) = a ++ take (n - String.length a) b.
Proof.
  revert n; induction a as [|x a IH]; intros n H; simpl in *.
  - now rewrite Nat.sub_0_r.
  - destruct n as [|n]; [lia|]. simpl. rewrite IH; [reflexivity | lia].
Qed.

Lemma c_str_append (a b : string) :
  find NUL a = None -> c_str (a ++ b) = a ++ c_str b.
Proof.
  intros H. unfold c_str.
  induction a as [|x a IH]; simpl in *; [reflexivity|].
  destruct (Ascii.eqb x NUL); [discriminate|].
  destruct (find NUL a); [discriminate|]. specialize (IH eq_refl).
  destruct (find NUL (a ++ b)), (find NUL b); simpl; congruence.
Qed.

Lemma token_prefix (s : string) : exists rest, s = token s ++ rest.
Proof.
  induction s as [|c s [r IH]]; simpl; [now exists ""|].
  destruct (Ascii.eqb c " " || Ascii.eqb c CR || Ascii.eqb c LF).
  - now exists (String c s).
  - exists r. simpl. congruence.
Qed.

(** A GET to the exact path is among the requests that the search
    accepts. *)
Lemma get_metrics_request_contains (request : string) :
  get_metrics_request request = true ->
  contains (request_text request) "GET /metrics".
Proof.
  unfold get_metrics_request. intros H. apply andb_prop in H.
  destruct H as [P T]. apply prefix_append in P. destruct P as [r ->].
  change (drop 4 ("GET " ++ r)) with r in T. apply String.eqb_eq in T.
  destruct (token_prefix r) as [r' E]. rewrite T in E. subst r.
  unfold request_text.
  change ("GET " ++ "/metrics" ++ r') with ("GET /metrics" ++ r').
  rewrite take_append_le by (simpl; lia).
  rewrite append_assoc, c_str_append by reflexivity.
  now exists "", (c_str (take (1023 - String.length "GET /metrics") r' ++ String NUL "")).
Qed.

Lemma recv_bytes (data : string) :
  recv (conn_bytes data) 1023
  = (Z.of_nat (String.length (take 1023 data)), take 1023 data).
Proof. reflexivity. Qed.

Lemma take_nonempty (n : nat) (data : string) :
  data <> "" -> 0 < Z.of_nat (String.length (take (S n) data)).
Proof. destruct data; [congruence|]. simpl String.length. lia. Qed.

Lemma ok_response_stream (body : string) :
  ((((((((((("" ++ "HTTP/1.1 200 OK") ++ crlf)
     ++ "Content-Type: text/plain; version=0.0.4; charset=utf-8") ++ crlf)
     ++ "Content-Length: ") ++ to_string (Z.of_nat (String.length body))) ++ crlf)
     ++ "Connection: close") ++ crlf) ++ crlf) ++ body)
  = ok_response body.
Proof. unfold ok_response. now rewrite !append_assoc. Qed.

Lemma handle_metrics_request_bytes (cm : MetricsData) (now : Z) (data : string) :
  data <> "" ->
  handle_metrics_request cm now (conn_bytes data)
  = match strstr (request_text data) "GET /metrics" with
    | Some _ => [ok_response (generate_metrics cm now)]
    | None => [not_found]
    end.
Proof.
  intros H. unfold handle_metrics_request.
  change (1024 - 1)%nat with 1023%nat. rewrite recv_bytes.
  pose proof (take_nonempty 1022 data H) as Hn.
  destruct (Z.leb_spec (Z.of_nat (String.length (take 1023 data))) 0); [lia|].
  fold (request_text data).
  destruct (strstr (request_text data) "GET /metrics"); [|reflexivity].
  cbv [put insert_text insert_string insert_integer].
  now rewrite ok_response_stream.
Qed.

End Responder.

(** *** The handler and the snapshot mutex *)

Section ThreadedResponder.

Lemma set_metrics_mutex_same (this : exporter) :
  set_metrics_mutex (metrics_mutex_ this) this = this.
Proof. now destruct this. Qed.

Lemma set_metrics_mutex_twice (m m' : mutex) (this : exporter) :
  set_metrics_mutex m (set_metrics_mutex m' this) = set_metrics_mutex m this.
Proof. now destruct this. Qed.

(** The renderer behind its lock guard. *)
Lemma generate_metrics_locked (self : thread_id) (this : exporter) (now : Z) :
  Threaded.generate_metrics self this now
  = and_then (lock self (metrics_mutex_ this)) (fun _ =>
      Returns (generate_metrics (current_metrics_ this) now,
               set_metrics_mutex None this)).
Proof.
  unfold Threaded.generate_metrics.
  destruct (lock self (metrics_mutex_ this)) as [held| | |]; cbn [and_then];
    reflexivity.
Qed.

(** The handler asks for the mutex on the requests that reach the renderer
    and on no other; what it sends once it has the mutex is what the
    snapshot and the clock determine. *)
Lemma handle_metrics_request_locked
    (self : thread_id) (this : exporter) (now : Z) (c : connection) :
  Threaded.handle_metrics_request self this now c
  = if reaches_renderer c
    then and_then (lock self (metrics_mutex_ this)) (fun _ =>
           Returns (handle_metrics_request (current_metrics_ this) now c,
                    set_metrics_mutex None this))
    else Returns (handle_metrics_request (current_metrics_ this) now c, this).
Proof.
  unfold Threaded.handle_metrics_request, handle_metrics_request, reaches_renderer.
  destruct c as [|data]; [reflexivity|].
  destruct data as [|a data]; [reflexivity|].
  cbn [recv]. cbv zeta.
  change (Z.of_nat (String.length (take (1024 - 1) (String a data))) <=? 0)
    with false.
  cbv iota.
  change (c_str (take (1024 - 1) (String a data) ++ String NUL ""))
    with (request_text (String a data)).
  change (negb (String a data =? "")%string) with true. cbn [andb].
  destruct (strstr (request_text (String a data)) "GET /metrics");
    [|reflexivity].
  rewrite generate_metrics_locked.
  destruct (lock self (metrics_mutex_ this)); reflexivity.
Qed.

End ThreadedResponder.

Lemma reaches_renderer_contains (data : string) :
  reaches_renderer (conn_bytes data) = true
  <-> data <> "" /\ contains (request_text data) "GET /metrics".
Proof.
  unfold reaches_renderer.
  pose proof (strstr_contains (request_text data) "GET /metrics") as C.
  destruct data as [|a data]; cbn [String.eqb negb andb].
  - split; [discriminate | intros [H _]; congruence].
  - change (negb (String a data =? "")%string) with true. cbn [andb].
    destruct (strstr (request_text (String a data)) "GET /metrics").
    + split; [intros _; split; [congruence | apply C; congruence] | reflexivity].
    + split; [discriminate | intros [_ H]; apply C in H; congruence].
Qed.

(** C1, as the code has it.  When the read fails or delivers no byte the
    handler sends nothing.  Otherwise it looks at the bytes read (1023 at
    most, up to the first NUL).  When the text GET /metrics does not occur
    in them it sends the 404 response with Content-Length: 0,
    Connection: close and no body, whoever holds the snapshot mutex.  When
    the text occurs anywhere in them the handler calls the renderer, which
    locks the snapshot mutex: with the mutex free it sends one 200 response
    with the content type text/plain; version=0.0.4; charset=utf-8, a
    Content-Length equal to the byte length of the rendered metrics,
    Connection: close and the rendered metrics as body, and leaves the
    exporter as it was; while another thread holds the mutex it waits and
    sends nothing.  A GET to the exact path /metrics is among the requests
    that reach the renderer. *)
Theorem handle_metrics_request_responses
  (self : thread_id) (this : exporter) (now : Z) :
  Threaded.handle_metrics_request self this now conn_error = Returns ([], this)
  /\ Threaded.handle_metrics_request self this now (conn_bytes "")
     = Returns ([], this)
  /\ (forall data, data <> "" ->
        ~ contains (request_text data) "GET /metrics" ->
        Threaded.handle_metrics_request self this now (conn_bytes data)
        = Returns ([not_found], this))
  /\ (forall data, data <> "" ->
        contains (request_text data) "GET /metrics" ->
        Threaded.handle_metrics_request self this now (conn_bytes data)
        = match metrics_mutex_ this with
          | None =>
              Returns ([ok_response
                          (generate_metrics (current_metrics_ this) now)],
                       this)
          | Some owner => if Nat.eqb owner self then Undefined else Blocks
          end)
  /\ (forall data, get_metrics_request data = true ->
        Threaded.handle_metrics_request self this now (conn_bytes data)
        = match metrics_mutex_ this with
          | None =>
              Returns ([ok_response
                          (generate_metrics (current_metrics_ this) now)],
                       this)
          | Some owner => if Nat.eqb owner self then Undefined else Blocks
          end)
  /\ not_found
     = "HTTP/1.1 404 Not Found" ++ crlf ++ "Content-Length: 0" ++ crlf
       ++ "Connection: close" ++ crlf ++ crlf.
Proof.
  assert (A : forall data, data <> "" ->
        contains (request_text data) "GET /metrics" ->
        Threaded.handle_metrics_request self this now (conn_bytes data)
        = match metrics_mutex_ this with
          | None =>
              Returns ([ok_response
                          (generate_metrics (current_metrics_ this) now)],
                       this)
          | Some owner => if Nat.eqb owner self then Undefined else Blocks
          end).
  { intros data Hd Hc. rewrite handle_metrics_request_locked.
    rewrite (proj2 (reaches_renderer_contains data) (conj Hd Hc)).
    rewrite handle_metrics_request_bytes by exact Hd.
    apply strstr_contains in Hc.
    destruct (strstr (request_text data) "GET /metrics"); [|congruence].
    destruct this as [en ss st mt mm sk mu ba bp cm].
    cbn [metrics_mutex_ current_metrics_].
    destruct mm as [owner|]; cbn [lock and_then]; [|reflexivity].
    now destruct (Nat.eqb owner self). }
  split; [reflexivity|]. split; [reflexivity|].
  split; [|split; [exact A|split; [|reflexivity]]].
  - intros data Hd Hc. rewrite handle_metrics_request_locked.
    destruct (reaches_renderer (conn_bytes data)) eqn:E.
    + apply reaches_renderer_contains in E. now destruct E.
    + rewrite handle_metrics_request_bytes by exact Hd.
      destruct (strstr (request_text data) "GET /metrics") eqn:S; [|reflexivity].
      exfalso. apply Hc, strstr_contains. congruence.
  - intros data Hg. apply A.
    + destruct data; [discriminate | congruence].
    + now apply get_metrics_request_contains.
Qed.

Lemma handle_metrics_request_responses_witness :
  Threaded.handle_metrics_request 1%nat
    (set_current_metrics game_snapshot idle_exporter) 17
    (conn_bytes "GET /metrics HTTP/1.1")
  = Returns ([ok_response (generate_metrics game_snapshot 17)],
             set_current_metrics game_snapshot idle_exporter)
  /\ Threaded.handle_metrics_request 1%nat hung_exporter 17
       (conn_bytes "GET /metrics HTTP/1.1")
     = Blocks
  /\ Threaded.handle_metrics_request 1%nat hung_exporter 17
       (conn_bytes "GET / HTTP/1.1")
     = Returns ([not_found], hung_exporter)
  /\ Threaded.handle_metrics_request 1%nat idle_exporter 17
       (conn_bytes "POST /metrics HTTP/1.1")
     = Returns ([not_found], idle_exporter).
Proof.
  split; [|split; [|split]].
  - destruct (handle_metrics_request_responses 1%nat
                (set_current_metrics game_snapshot idle_exporter) 17)
      as [_ [_ [_ [_ [C _]]]]].
    exact (C "GET /metrics HTTP/1.1" eq_refl).
  - destruct (handle_metrics_request_responses 1%nat hung_exporter 17)
      as [_ [_ [_ [_ [C _]]]]].
    exact (C "GET /metrics HTTP/1.1" eq_refl).
  - destruct (handle_metrics_request_responses 1%nat hung_exporter 17)
      as [_ [_ [B _]]].
    apply B; [discriminate|].
    intros H. apply strstr_contains in H. apply H. reflexivity.
  - destruct (handle_metrics_request_responses 1%nat idle_exporter 17)
      as [_ [_ [B _]]].
    apply B; [discriminate|].
    intros H. apply strstr_contains in H. apply H. reflexivity.
Defined.

(** C1 as it is worded fails.  After a failed read the handler sends
    nothing, so no 404 either; a GET to another path that merely starts
    with /metrics is answered with 200 and the metrics; and a GET to the
    exact path gets no response for as long as another thread holds the
    snapshot mutex. *)
Lemma handle_metrics_request_counterexample :
  (Threaded.handle_metrics_request 1%nat idle_exporter 0 conn_error
   = Returns ([], idle_exporter)
   /\ [] <> [not_found])
  /\ (get_metrics_request "GET /metricsfoo HTTP/1.1" = false
      /\ Threaded.handle_metrics_request 1%nat idle_exporter 0
           (conn_bytes "GET /metricsfoo HTTP/1.1")
         = Returns ([ok_response (generate_metrics MetricsData_default 0)],
                    idle_exporter)
      /\ [ok_response (generate_metrics MetricsData_default 0)] <> [not_found])
  /\ (get_metrics_request "GET /metrics HTTP/1.1" = true
      /\ metrics_mutex_ hung_exporter = Some 2%nat
      /\ Threaded.handle_metrics_request 1%nat hung_exporter 0
           (conn_bytes "GET /metrics HTTP/1.1")
         = Blocks).
Proof.
  split; [split; [reflexivity | discriminate]|].
  split; [split; [reflexivity|split; [reflexivity | discriminate]]|].
  repeat split.
Qed.

(* ================================================================= *)
(** ** Sampler *)

Section SamplerFacts.

Variable engines : N -> string.

(** Called by a thread that does not hold the mutex, while nobody else
    does either, [update_metrics] returns with the mutex free again and the
    snapshot replaced. *)
Lemma update_metrics_unlocked (self : thread_id) (host : Live.process) (this : exporter) :
  metrics_mutex_ this = None ->
  exists this',
    update_metrics engines self host this = Returns this'
    /\ metrics_mutex_ this' = None
    /\ metrics_updated_ this' = true
    /\ should_stop_ this' = should_stop_ this
    /\ fps (current_metrics_ this') = Live.fps (Live.currentLogData host)
    /\ frametime (current_metrics_ this') = Live.frametime (Live.currentLogData host)
    /\ cpu_load (current_metrics_ this') = Live.cpu_load (Live.currentLogData host)
    /\ cpu_power (current_metrics_ this') = Live.cpu_power (Live.currentLogData host)
    /\ cpu_mhz (current_metrics_ this') = Live.cpu_mhz (Live.currentLogData host)
    /\ cpu_temp (current_metrics_ this') = Live.cpu_temp (Live.currentLogData host)
    /\ gpu_load (current_metrics_ this')
       = float_of_int (Live.gpu_load (Live.currentLogData host))
    /\ gpu_temp (current_metrics_ this') = Live.gpu_temp (Live.currentLogData host)
    /\ gpu_core_clock (current_metrics_ this')
       = Live.gpu_core_clock (Live.currentLogData host)
    /\ gpu_mem_clock (current_metrics_ this')
       = Live.gpu_mem_clock (Live.currentLogData host)
    /\ gpu_power (current_metrics_ this') = Live.gpu_power (Live.currentLogData host)
    /\ gpu_vram_used (current_metrics_ this')
       = Live.gpu_vram_used (Live.currentLogData host)
    /\ ram_used (current_metrics_ this') = Live.ram_used (Live.currentLogData host)
    /\ swap_used (current_metrics_ this') = Live.swap_used (Live.currentLogData host)
    /\ process_rss (current_metrics_ this')
       = Live.process_rss (Live.currentLogData host)
    /\ process_name (current_metrics_ this') = Live.get_program_name host
    /\ process_pid (current_metrics_ this') = Live.getpid host
    /\ timestamp (current_metrics_ this') = Live.steady_clock_now host.
Proof.
  intros H. unfold update_metrics. rewrite H. simpl.
  eexists. split; [reflexivity|]. repeat split.
Qed.

Lemma update_metrics_owner (self : thread_id) (host : Live.process) (this : exporter) :
  metrics_mutex_ this = Some self ->
  update_metrics engines self host this = Undefined.
Proof.
  intros H. unfold update_metrics. rewrite H. simpl.
  now rewrite Nat.eqb_refl.
Qed.

End SamplerFacts.

(** C7, at the failing input.  Take any exporter whose stop flag is clear
    and whose mutex is free, and a wake-up at which no stop is requested.
    The iteration of [run] locks the mutex, still owns it after the wait,
    and calls [update_metrics], which locks the same mutex again: the
    outcome is the undefined behaviour of a second [lock] by the owner, and
    no snapshot is written.  [update_metrics] by itself, called without the
    mutex held, does lock once and overwrite the snapshot. *)
Theorem run_iteration_locks_twice
  (engines : N -> string) (self : thread_id) (host : Live.process) (this : exporter) :
  let ready := set_metrics_mutex None (set_should_stop false this) in
  run_iteration engines self (mk_wakeup false host) ready = Undefined
  /\ lock self (metrics_mutex_ ready) = Returns (Some self)
  /\ update_metrics engines self host (set_metrics_mutex (Some self) ready)
     = Undefined
  /\ (forall ws, run engines self (mk_wakeup false host :: ws) ready = Undefined)
  /\ (exists this', update_metrics engines self host ready = Returns this'
                    /\ metrics_mutex_ this' = None).
Proof.
  intros ready. split; [|split; [|split; [|split]]].
  - unfold run_iteration, update_metrics. simpl. now rewrite Nat.eqb_refl.
  - reflexivity.
  - now apply update_metrics_owner.
  - intros ws. unfold run at 1. cbn [and_then].
    unfold run_iteration, update_metrics. simpl. now rewrite Nat.eqb_refl.
  - destruct (update_metrics_unlocked engines self host ready eq_refl)
      as [this' [A [B _]]].
    now exists this'.
Qed.

(** The update by itself.  Each call of [update_metrics] that gets the
    mutex derives the graphics API name anew, whatever the snapshot held
    before: it is the entry of the engine table when the index source is
    there and the index is below 18, and the text unknown when the source
    is absent or the index is 18 or more; the call returns in either
    case. *)
Lemma update_metrics_graphics_api
  (engines : N -> string) (self : thread_id) (host : Live.process) (this : exporter) :
  metrics_mutex_ this = None ->
  exists this',
    update_metrics engines self host this = Returns this'
    /\ (Live.sw_stats (Live.HUDElements host) = None ->
        graphics_api (current_metrics_ this') = "unknown")
    /\ (forall st, Live.sw_stats (Live.HUDElements host) = Some st ->
                   (18 <= Live.engine st)%N ->
                   graphics_api (current_metrics_ this') = "unknown")
    /\ (forall st, Live.sw_stats (Live.HUDElements host) = Some st ->
                   (Live.engine st < 18)%N ->
                   graphics_api (current_metrics_ this') = engines (Live.engine st)).
Proof.
  intros H. unfold update_metrics. rewrite H. simpl.
  eexists. split; [reflexivity|]. simpl. repeat split.
  - now intros ->.
  - intros st -> Hst. destruct (N.ltb_spec (Live.engine st) 18); [lia | reflexivity].
  - intros st -> Hst. destruct (N.ltb_spec (Live.engine st) 18); [reflexivity | lia].
Qed.

Lemma update_metrics_graphics_api_witness :
  (exists this',
     update_metrics example_engines 1%nat (example_host None) idle_exporter
     = Returns this'
     /\ graphics_api (current_metrics_ this') = "unknown")
  /\ (exists this',
     update_metrics example_engines 1%nat
       (example_host (Some (Live.mk_swapchain_stats 40))) idle_exporter
     = Returns this'
     /\ graphics_api (current_metrics_ this') = "unknown")
  /\ (exists this',
     update_metrics example_engines 1%nat
       (example_host (Some (Live.mk_swapchain_stats 2))) idle_exporter
     = Returns this'
     /\ graphics_api (current_metrics_ this') = "VULKAN").
Proof.
  split; [|split].
  - destruct (update_metrics_graphics_api example_engines 1%nat
                (example_host None) idle_exporter eq_refl)
      as [this' [A [B _]]].
    exists this'. split; [exact A | apply B; reflexivity].
  - destruct (update_metrics_graphics_api example_engines 1%nat
                (example_host (Some (Live.mk_swapchain_stats 40)))
                idle_exporter eq_refl)
      as [this' [A [_ [B _]]]].
    exists this'. split; [exact A|].
    apply (B (Live.mk_swapchain_stats 40)); [reflexivity | simpl; lia].
  - destruct (update_metrics_graphics_api example_engines 1%nat
                (example_host (Some (Live.mk_swapchain_stats 2)))
                idle_exporter eq_refl)
      as [this' [A [_ [_ B]]]].
    exists this'. split; [exact A|].
    apply (B (Live.mk_swapchain_stats 2)); [reflexivity | simpl; lia].
Defined.

(** C9, at the failing input.  A sampler tick is an iteration of [run] at
    whose wake-up no stop is requested.  On every tick taken with the mutex
    free, for every live source, the iteration owns the mutex when it calls
    [update_metrics], whose own [lock] is then undefined behaviour: the
    tick fails, nothing is derived and the graphics API name keeps its old
    value, also when the index source is absent or the index out of range.
    When another thread owns the mutex the tick waits.  No iteration that
    returns is a tick, and none changes the snapshot.  The update by
    itself, called with the mutex free, does set the name: to the table
    entry for an index below 18, to unknown otherwise. *)
Theorem run_iteration_never_derives_graphics_api
  (engines : N -> string) (self : thread_id) (host : Live.process) (this : exporter) :
  let ready := set_metrics_mutex None (set_should_stop false this) in
  run_iteration engines self (mk_wakeup false host) ready = Undefined
  /\ (forall ws, run engines self (mk_wakeup false host :: ws) ready = Undefined)
  /\ (forall owner, owner <> self ->
        run_iteration engines self (mk_wakeup false host)
          (set_metrics_mutex (Some owner) (set_should_stop false this))
        = Blocks)
  /\ (forall w r, run_iteration engines self w this = Returns r ->
        fst r = loop_exit
        /\ (should_stop_ this = true \/ stop_requested w = true)
        /\ current_metrics_ (snd r) = current_metrics_ this)
  /\ (forall ws r, run engines self ws this = Returns r ->
        graphics_api (current_metrics_ (snd r))
        = graphics_api (current_metrics_ this))
  /\ (exists this',
        update_metrics engines self host ready = Returns this'
        /\ graphics_api (current_metrics_ this')
           = match Live.sw_stats (Live.HUDElements host) with
             | Some st => if (Live.engine st <? 18)%N
                          then engines (Live.engine st) else "unknown"
             | None => "unknown"
             end).
Proof.
  assert (It : forall w this0 r,
             run_iteration engines self w this0 = Returns r ->
             fst r = loop_exit
             /\ (should_stop_ this0 = true \/ stop_requested w = true)
             /\ current_metrics_ (snd r) = current_metrics_ this0).
  { intros w this0 r. destruct this0 as [en ss st mt mm sk mu ba bp cm].
    unfold run_iteration, update_metrics.
    cbn [should_stop_ metrics_mutex_ set_metrics_mutex set_should_stop
         current_metrics_ enabled_ server_thread_ metrics_thread_
         server_socket_ metrics_updated_ bind_address_ bind_port_].
    destruct ss.
    - intros H. injection H as <-. cbn. auto.
    - destruct mm as [owner|]; cbn [lock and_then].
      + destruct (Nat.eqb owner self); discriminate.
      + destruct (stop_requested w).
        * intros H. injection H as <-. cbn. auto.
        * cbn. rewrite Nat.eqb_refl. discriminate. }
  assert (Rn : forall ws this0 r,
             run engines self ws this0 = Returns r ->
             graphics_api (current_metrics_ (snd r))
             = graphics_api (current_metrics_ this0)).
  { induction ws as [|w ws IH]; intros this0 r H.
    - cbn in H. now injection H as <-.
    - cbn [run] in H.
      destruct (run_iteration engines self w this0) as [r0| | |] eqn:E;
        cbn [and_then] in H; try discriminate.
      destruct (It w this0 r0 E) as [A [_ C]].
      rewrite A in H. injection H as <-. now rewrite C. }
  intros ready.
  split; [|split; [|split; [|split; [|split]]]].
  - unfold run_iteration, update_metrics. simpl. now rewrite Nat.eqb_refl.
  - intros ws. unfold run at 1. cbn [and_then].
    unfold run_iteration, update_metrics. simpl. now rewrite Nat.eqb_refl.
  - intros owner Ho. unfold run_iteration. simpl.
    destruct (Nat.eqb_spec owner self); [contradiction | reflexivity].
  - intros w r. apply It.
  - intros ws r. apply Rn.
  - unfold update_metrics. simpl. eexists. split; [reflexivity|]. reflexivity.
Qed.

Lemma run_iteration_never_derives_graphics_api_witness :
  let this := set_current_metrics game_snapshot idle_exporter in
  run_iteration example_engines 1%nat (mk_wakeup false (example_host None)) this
  = Undefined
  /\ (forall r,
        run_iteration example_engines 1%nat
          (mk_wakeup true (example_host None)) this = Returns r ->
        graphics_api (current_metrics_ (snd r)) = "vulkan").
Proof.
  intros this.
  destruct (run_iteration_never_derives_graphics_api example_engines 1%nat
              (example_host None) this) as [A [_ [_ [B _]]]].
  split; [exact A|].
  intros r H. destruct (B _ _ H) as [_ [_ C]]. now rewrite C.
Defined.

(* ================================================================= *)
(** ** Lifecycle controller *)

Section Lifecycle.

Lemma join_responsive (t : thread entry_point) :
  joinable t = true -> responsive t = true -> join t = Returns None.
Proof.
  destruct t as [th|]; simpl; [|discriminate]. intros _ H.
  now destruct (blocked_for_good th).
Qed.

(** What [stop] returns, when it returns. *)
Lemma stop_returns (this : exporter) (open_fds : list Z) :
  responsive (server_thread_ this) = true ->
  responsive (metrics_thread_ this) = true ->
  stop this open_fds
  = Returns (mk_exporter (enabled_ this) true None None (metrics_mutex_ this)
               (if 0 <=? server_socket_ this then -1 else server_socket_ this)
               (metrics_updated_ this) (bind_address_ this) (bind_port_ this)
               (current_metrics_ this),
             if 0 <=? server_socket_ this
             then close (server_socket_ this) open_fds else open_fds).
Proof.
  destruct this as [en ss st mt mm sk mu ba bp cm]. simpl. intros Hs Hm.
  unfold stop. simpl.
  destruct (0 <=? sk); destruct st as [[fs [|]]|], mt as [[fm [|]]|];
    simpl in *; try discriminate; reflexivity.
Qed.

Lemma stop_inversion (this this1 : exporter) (open_fds fds1 : list Z) :
  stop this open_fds = Returns (this1, fds1) ->
  responsive (server_thread_ this) = true
  /\ responsive (metrics_thread_ this) = true.
Proof.
  destruct this as [en ss st mt mm sk mu ba bp cm]. unfold stop. simpl.
  destruct (0 <=? sk); destruct st as [[fs [|]]|], mt as [[fm [|]]|];
    simpl; intros H; try discriminate; now split.
Qed.

Lemma stop_no_error (this : exporter) (open_fds : list Z) :
  stop this open_fds <> Terminates /\ stop this open_fds <> Undefined.
Proof.
  destruct this as [en ss st mt mm sk mu ba bp cm]. unfold stop. simpl.
  destruct (0 <=? sk); destruct st as [[fs [|]]|], mt as [[fm [|]]|];
    simpl; split; discriminate.
Qed.


End Lifecycle.

(** *** [stop] and the threads it joins *)

Section ThreadedLifecycle.

(** [stop] once neither thread is blocked for good: when it joins a thread,
    the members that the threads write are as the threads left them; when
    there is nothing to join, it is the sequential [stop]. *)
Lemma threaded_stop_returns
    (left : Threaded.left_behind) (this : exporter) (open_fds : list Z) :
  responsive (server_thread_ this) = true ->
  responsive (metrics_thread_ this) = true ->
  Threaded.stop left this open_fds
  = Returns
      (if joinable (server_thread_ this) || joinable (metrics_thread_ this)
       then (mk_exporter (enabled_ this) true None None
               (Threaded.mutex_left left) (Threaded.socket_left left)
               (Threaded.updated_left left) (bind_address_ this)
               (bind_port_ this) (Threaded.snapshot_left left),
             Threaded.fds_left left)
       else (mk_exporter (enabled_ this) true None None
               (metrics_mutex_ this)
               (if 0 <=? server_socket_ this then -1 else server_socket_ this)
               (metrics_updated_ this) (bind_address_ this) (bind_port_ this)
               (current_metrics_ this),
             if 0 <=? server_socket_ this
             then close (server_socket_ this) open_fds else open_fds)).
Proof.
  destruct this as [en ss st mt mm sk mu ba bp cm]. simpl. intros Hs Hm.
  unfold Threaded.stop. simpl.
  destruct (0 <=? sk); destruct st as [[fs [|]]|], mt as [[fm [|]]|];
    simpl in *; try discriminate; reflexivity.
Qed.

Lemma threaded_stop_sequential
    (left : Threaded.left_behind) (this : exporter) (open_fds : list Z) :
  joinable (server_thread_ this) = false ->
  joinable (metrics_thread_ this) = false ->
  Threaded.stop left this open_fds = stop this open_fds.
Proof.
  destruct this as [en ss st mt mm sk mu ba bp cm]. simpl. intros Hs Hm.
  unfold Threaded.stop, stop. simpl.
  destruct (0 <=? sk); destruct st as [[fs [|]]|], mt as [[fm [|]]|];
    simpl in *; try discriminate; reflexivity.
Qed.

Lemma threaded_stop_no_error
    (left : Threaded.left_behind) (this : exporter) (open_fds : list Z) :
  Threaded.stop left this open_fds <> Terminates
  /\ Threaded.stop left this open_fds <> Undefined.
Proof.
  destruct this as [en ss st mt mm sk mu ba bp cm]. unfold Threaded.stop. simpl.
  destruct (0 <=? sk); destruct st as [[fs [|]]|], mt as [[fm [|]]|];
    simpl; split; discriminate.
Qed.

Lemma threaded_stop_blocks
    (left : Threaded.left_behind) (this : exporter) (open_fds : list Z) :
  responsive (server_thread_ this) = false
  \/ responsive (metrics_thread_ this) = false ->
  Threaded.stop left this open_fds = Blocks.
Proof.
  destruct this as [en ss st mt mm sk mu ba bp cm]. unfold Threaded.stop. simpl.
  destruct (0 <=? sk); destruct st as [[fs [|]]|], mt as [[fm [|]]|];
    simpl; intros [H|H]; try discriminate; reflexivity.
Qed.

(** [stop] on an exporter without threads: it closes the socket if the
    handle holds one, and a [stop] after that changes nothing. *)
Lemma threaded_stop_joined
    (left : Threaded.left_behind) (this : exporter) (open_fds : list Z) :
  should_stop_ this = true ->
  server_thread_ this = None -> metrics_thread_ this = None ->
  Threaded.stop left this open_fds
  = Returns (if 0 <=? server_socket_ this
             then (set_server_socket (-1) this,
                   close (server_socket_ this) open_fds)
             else (this, open_fds)).
Proof.
  destruct this as [en ss st mt mm sk mu ba bp cm]. simpl.
  intros -> -> ->. unfold Threaded.stop. simpl.
  destruct (0 <=? sk); reflexivity.
Qed.

End ThreadedLifecycle.

(** C8 as it is worded fails.  [stop] on an exporter that was never
    started does change its state: it sets the stop flag, which the
    constructor had cleared.  When the sampler thread hangs in the second
    [lock] of a tick, [stop] waits in [join] and does not return.  And
    [stop] is not idempotent: a listener that found the stop flag clear at
    the end of its start delay creates its socket after [stop] has looked
    at the handle, and ends at its first loop test; [stop] then returns
    with the socket open and its handle set, and it is the second [stop]
    that closes the socket and changes the exporter. *)
Lemma stop_counterexample :
  (OtelExporter example_params 0 = Ok (idle_exporter, [])
   /\ Threaded.stop (left_by example_server) idle_exporter []
      = Returns (set_should_stop true idle_exporter, [])
   /\ should_stop_ idle_exporter = false
   /\ should_stop_ (set_should_stop true idle_exporter) = true
   /\ set_should_stop true idle_exporter <> idle_exporter)
  /\ Threaded.stop (left_by example_server) hung_exporter [7] = Blocks
  /\ (exists late once twice,
        start idle_exporter = Returns started_exporter
        /\ start_delay_timer example_params false example_calls
             [stop_seen_poll] (mk_server started_exporter [3] [] [])
           = Returns (loop_exit, late)
        /\ Threaded.stop (left_by late) started_exporter [3]
           = Returns (once, [7; 3])
        /\ server_socket_ once = 7
        /\ Threaded.stop (left_by late) once [7; 3] = Returns (twice, [3])
        /\ server_socket_ twice = -1
        /\ twice <> once).
Proof.
  split; [|split; [reflexivity|]].
  - repeat split. discriminate.
  - do 3 eexists.
    split; [reflexivity|]. split; [reflexivity|]. split; [reflexivity|].
    split; [reflexivity|]. split; [reflexivity|]. split; [reflexivity|].
    discriminate.
Qed.

(** C8, as the code has it.  [stop] ends in no error.  Whenever neither
    task is blocked for good it returns with the stop flag set and both
    task handles joined and empty; the socket handle and the open
    descriptors are then as the joined threads left them, or, when there
    was no thread to join, as [stop] itself left them, the socket closed
    and the handle negative.  A second [stop] right after returns as well
    and leaves the socket closed, the handle negative, the flag set and the
    tasks joined; it changes nothing if the first had left the handle
    negative, and any [stop] after the second changes nothing.  When a task
    is blocked for good [stop] does not return.  On an exporter that was
    never started [stop] returns and changes nothing but the stop flag,
    which it sets. *)
Theorem stop_twice_closes_and_joins :
  (forall left this open_fds,
      Threaded.stop left this open_fds <> Terminates
      /\ Threaded.stop left this open_fds <> Undefined)
  /\ (forall left this open_fds,
      responsive (server_thread_ this) = true ->
      responsive (metrics_thread_ this) = true ->
      exists this1 fds1,
        Threaded.stop left this open_fds = Returns (this1, fds1)
        /\ should_stop_ this1 = true
        /\ joinable (server_thread_ this1) = false
        /\ joinable (metrics_thread_ this1) = false
        /\ (joinable (server_thread_ this) || joinable (metrics_thread_ this)
            = true ->
            server_socket_ this1 = Threaded.socket_left left
            /\ fds1 = Threaded.fds_left left)
        /\ (joinable (server_thread_ this) || joinable (metrics_thread_ this)
            = false ->
            stop this open_fds = Returns (this1, fds1)
            /\ server_socket_ this1 < 0
            /\ (0 <= server_socket_ this -> ~ In (server_socket_ this) fds1))
        /\ forall left2,
           exists this2 fds2,
             Threaded.stop left2 this1 fds1 = Returns (this2, fds2)
             /\ should_stop_ this2 = true
             /\ joinable (server_thread_ this2) = false
             /\ joinable (metrics_thread_ this2) = false
             /\ server_socket_ this2 < 0
             /\ (0 <= server_socket_ this1 ->
                 server_socket_ this2 = -1
                 /\ ~ In (server_socket_ this1) fds2)
             /\ (server_socket_ this1 < 0 -> this2 = this1 /\ fds2 = fds1)
             /\ forall left3,
                Threaded.stop left3 this2 fds2 = Returns (this2, fds2))
  /\ (forall left this open_fds,
      responsive (server_thread_ this) = false
      \/ responsive (metrics_thread_ this) = false ->
      Threaded.stop left this open_fds = Blocks)
  /\ (forall left this open_fds,
      server_thread_ this = None -> metrics_thread_ this = None ->
      server_socket_ this < 0 ->
      Threaded.stop left this open_fds
      = Returns (set_should_stop true this, open_fds)).
Proof.
  split; [exact threaded_stop_no_error|].
  split; [|split; [exact threaded_stop_blocks|]].
  - intros left this open_fds Hs Hm.
    rewrite threaded_stop_returns by assumption.
    assert (Second : forall this1 fds1,
               should_stop_ this1 = true ->
               server_thread_ this1 = None -> metrics_thread_ this1 = None ->
               forall left2,
               exists this2 fds2,
                 Threaded.stop left2 this1 fds1 = Returns (this2, fds2)
                 /\ should_stop_ this2 = true
                 /\ joinable (server_thread_ this2) = false
                 /\ joinable (metrics_thread_ this2) = false
                 /\ server_socket_ this2 < 0
                 /\ (0 <= server_socket_ this1 ->
                     server_socket_ this2 = -1
                     /\ ~ In (server_socket_ this1) fds2)
                 /\ (server_socket_ this1 < 0 -> this2 = this1 /\ fds2 = fds1)
                 /\ forall left3,
                    Threaded.stop left3 this2 fds2 = Returns (this2, fds2)).
    { intros this1 fds1 F S M left2.
      rewrite threaded_stop_joined by assumption.
      destruct this1 as [en1 ss1 st1 mt1 mm1 sk1 mu1 ba1 bp1 cm1].
      cbn [should_stop_ server_thread_ metrics_thread_ server_socket_] in *.
      subst ss1 st1 mt1.
      destruct (Z.leb_spec 0 sk1) as [L|L]; do 2 eexists;
        (split; [reflexivity|]);
        cbn [fst snd set_server_socket should_stop_ server_thread_
             metrics_thread_ server_socket_ joinable enabled_ metrics_mutex_
             metrics_updated_ bind_address_ bind_port_ current_metrics_].
      - split; [reflexivity|]. split; [reflexivity|]. split; [reflexivity|].
        split; [lia|]. split.
        { intros _. split; [reflexivity|]. unfold close. apply remove_In. }
        split; [lia|].
        intros left3. now rewrite threaded_stop_joined.
      - split; [reflexivity|]. split; [reflexivity|]. split; [reflexivity|].
        split; [lia|]. split; [lia|]. split; [auto|].
        intros left3. rewrite threaded_stop_joined by reflexivity.
        cbn [server_socket_].
        destruct (Z.leb_spec 0 sk1); [lia | reflexivity]. }
    destruct this as [en ss st mt mm sk mu ba bp cm].
    cbn [enabled_ should_stop_ server_socket_ server_thread_ metrics_thread_
         metrics_mutex_ metrics_updated_ bind_address_ bind_port_
         current_metrics_] in *.
    destruct (joinable st || joinable mt) eqn:J; do 2 eexists;
      (split; [reflexivity|]);
      cbn [fst snd should_stop_ server_thread_ metrics_thread_ server_socket_
           joinable].
    + split; [reflexivity|]. split; [reflexivity|]. split; [reflexivity|].
      split; [auto|]. split; [discriminate|].
      apply Second; reflexivity.
    + apply orb_false_elim in J. destruct J as [J1 J2].
      split; [reflexivity|]. split; [reflexivity|]. split; [reflexivity|].
      split; [discriminate|]. split.
      { intros _. split.
        - rewrite stop_returns by assumption.
          cbn [enabled_ should_stop_ server_socket_ server_thread_
               metrics_thread_ metrics_mutex_ metrics_updated_ bind_address_
               bind_port_ current_metrics_].
          now destruct (0 <=? sk).
        - split.
          + destruct (Z.leb_spec 0 sk); lia.
          + intros H. destruct (Z.leb_spec 0 sk); [|lia].
            unfold close. apply remove_In. }
      apply Second; reflexivity.
  - intros left this open_fds Hs Hm Hk.
    rewrite threaded_stop_sequential by (rewrite ?Hs, ?Hm; reflexivity).
    rewrite stop_returns by (rewrite ?Hs, ?Hm; reflexivity).
    destruct this as [en ss st mt mm sk mu ba bp cm].
    cbn [enabled_ should_stop_ server_socket_ server_thread_ metrics_thread_
         metrics_mutex_ metrics_updated_ bind_address_ bind_port_
         current_metrics_ set_should_stop] in *.
    subst st mt. destruct (Z.leb_spec 0 sk); [lia | reflexivity].
Qed.

Lemma stop_twice_closes_and_joins_witness :
  (exists this1 fds1 this2,
     Threaded.stop (Threaded.mk_left_behind 7 [7; 3] None false
                      MetricsData_default) started_exporter [3]
     = Returns (this1, fds1)
     /\ server_socket_ this1 = 7 /\ fds1 = [7; 3]
     /\ Threaded.stop (left_by example_server) this1 fds1
        = Returns (this2, [3])
     /\ server_socket_ this2 = -1
     /\ Threaded.stop (left_by example_server) this2 [3] = Returns (this2, [3]))
  /\ Threaded.stop (left_by example_server) idle_exporter [3]
     = Returns (set_should_stop true idle_exporter, [3])
  /\ Threaded.stop (left_by example_server) hung_exporter [7; 3] = Blocks.
Proof.
  destruct stop_twice_closes_and_joins as [_ [A [B C]]].
  split; [|split].
  - destruct (A (Threaded.mk_left_behind 7 [7; 3] None false
                   MetricsData_default) started_exporter [3]
                eq_refl eq_refl)
      as [this1 [fds1 [H1 [_ [_ [_ [H2 [_ H3]]]]]]]].
    destruct (H2 eq_refl) as [K1 K2]. cbn in K1, K2.
    destruct (H3 (left_by example_server))
      as [this2 [fds2 [G1 [_ [_ [_ [_ [G2 [_ G3]]]]]]]]].
    destruct G2 as [G2 G2']; [rewrite K1; lia|].
    exists this1, fds1, this2. split; [exact H1|].
    split; [exact K1|]. split; [exact K2|].
    assert (E : fds2 = [3]).
    { pose proof H1 as H1'. vm_compute in H1'. injection H1' as E1 E2.
      pose proof G1 as G1'. rewrite <- E1, <- E2 in G1'.
      vm_compute in G1'. now injection G1' as _ <-. }
    rewrite E in G1, G3.
    split; [exact G1|]. split; [exact G2|]. apply G3.
  - apply (C (left_by example_server) idle_exporter [3]);
      [reflexivity | reflexivity | simpl; lia].
  - apply B. right. reflexivity.
Defined.



(* ================================================================= *)
(** ** Further properties of the bind address resolver *)

Section LenientPorts.

Lemma scan_digits_stop (tail : string) (acc : Z) :
  no_digit_ahead tail = true -> scan_digits tail acc true = Some acc.
Proof.
  destruct tail as [|c rest]; simpl; [reflexivity|].
  unfold isdigit. now destruct (digit_of c).
Qed.

Lemma scan_digits_of_uint_acc_then (d : uint) (tail : string) (acc : positive) :
  scan_digits (NilEmpty.string_of_uint d ++ tail) (Zpos acc) true
  = scan_digits tail (Zpos (Pos.of_uint_acc d acc)) true.
Proof.
  revert acc; induction d; intros acc;
    cbn [NilEmpty.string_of_uint Pos.of_uint_acc append]; try reflexivity;
    (erewrite scan_digits_step by reflexivity);
    match goal with
    | |- context [code ?c - 48] =>
        let k := eval vm_compute in (code c - 48) in
        change (code c - 48) with k
    end;
    match goal with
    | |- scan_digits _ ?v true = scan_digits _ (Zpos (Pos.of_uint_acc _ ?a)) true =>
        replace v with (Zpos a) by lia; apply IHd
    end.
Qed.

Lemma scan_digits_of_uint_then (d : uint) (tail : string) (any : bool) (q : positive) :
  Pos.of_uint d = Npos q -> no_digit_ahead tail = true ->
  scan_digits (NilEmpty.string_of_uint d ++ tail) 0 any = Some (Zpos q).
Proof.
  intros H Ht. revert any H; induction d; intros any H;
    cbn [NilEmpty.string_of_uint Pos.of_uint append] in *;
    try discriminate;
    try (injection H as <-; erewrite scan_digits_step by reflexivity;
         match goal with
         | |- context [code ?c - 48] =>
             let k := eval vm_compute in (code c - 48) in
             change (code c - 48) with k
         end;
         cbn [Z.mul Z.add];
         rewrite scan_digits_of_uint_acc_then; now apply scan_digits_stop).
  erewrite scan_digits_step by reflexivity. now apply IHd.
Qed.

Lemma numeral_head (d : uint) (tail : string) :
  d <> Nil ->
  skip_spaces (NilEmpty.string_of_uint d ++ tail) = NilEmpty.string_of_uint d ++ tail
  /\ strip_sign (NilEmpty.string_of_uint d ++ tail)
     = (false, NilEmpty.string_of_uint d ++ tail).
Proof. destruct d; intros H; try (now split); congruence. Qed.

Lemma skip_spaces_lead (lead s : string) :
  all_spaces lead = true -> skip_spaces (lead ++ s) = skip_spaces s.
Proof.
  induction lead as [|c lead IH]; simpl; [reflexivity|].
  intros H. apply andb_prop in H. destruct H as [Hc Hl].
  rewrite Hc. now apply IH.
Qed.

(** [stoi] reads a numeral through leading white space and stops at the
    first character that is no digit. *)
Lemma stoi_lenient (lead tail : string) (p : Z) :
  1 <= p <= INT_MAX -> all_spaces lead = true -> no_digit_ahead tail = true ->
  stoi (lead ++ to_string p ++ tail) = Ok p.
Proof.
  intros Hp Hl Ht. destruct p as [|p|p]; try lia.
  rewrite to_string_pos. unfold stoi. rewrite skip_spaces_lead by exact Hl.
  destruct (numeral_head (Pos.to_uint p) tail (Unsigned.to_uint_nonnil p))
    as [-> ->].
  rewrite (scan_digits_of_uint_then _ tail false p (Unsigned.of_to p) Ht).
  unfold INT_MAX, INT_MIN in *.
  destruct (Z.ltb_spec (Zpos p) (-2147483648)); [lia|].
  destruct (Z.ltb_spec 2147483647 (Zpos p)); [lia|]. reflexivity.
Qed.

End LenientPorts.

(** X1.  The resolver reads the port the way [strtol] reads a number: white
    space before the numeral is skipped and whatever follows it, starting
    with a character that is no digit, is ignored.  So a bind string whose
    port part is a numeral of 1..65535 wrapped in such text resolves to that
    port, with no error logged. *)
Theorem parse_bind_address_ignores_text_around_port
  (host lead tail : string) (p : Z) :
  find ":" host = None -> 1 <= p <= 65535 ->
  all_spaces lead = true -> no_digit_ahead tail = true ->
  parse_bind_address (host ++ ":" ++ lead ++ to_string p ++ tail)
  = Ok (mk_bind_target host p (validate_address host)).
Proof.
  intros Hh Hp Hl Ht.
  rewrite parse_bind_address_parts.
  destruct (parts_of_host_colon_port host (lead ++ to_string p ++ tail) Hh)
    as [-> ->].
  assert (Hs : stoi (lead ++ to_string p ++ tail) = Ok p)
    by (apply stoi_lenient; trivial; unfold INT_MAX; lia).
  now rewrite (port_of_valid _ _ Hs Hp).
Qed.

Lemma parse_bind_address_ignores_text_around_port_witness :
  parse_bind_address ("127.0.0.1" ++ ":" ++ " " ++ to_string 8080 ++ ":9090/tcp")
  = Ok (mk_bind_target "127.0.0.1" 8080 (validate_address "127.0.0.1")).
Proof.
  apply (parse_bind_address_ignores_text_around_port
           "127.0.0.1" " " ":9090/tcp" 8080);
    [reflexivity | lia | reflexivity | reflexivity].
Defined.

(** X2.  The constructor never throws.  It leaves the exporter idle: stop
    flag clear, both task handles empty, no socket, nothing sampled, the
    snapshot at its defaults.  An enabled exporter gets the resolver's
    address and a port of 1..65535; for a disabled one the bind string is
    not looked at, nothing is logged and the address stays empty. *)
Theorem constructor_leaves_exporter_idle (params : overlay_params) (indeterminate : Z) :
  exists this lg,
    OtelExporter params indeterminate = Ok (this, lg)
    /\ is_enabled this = otel_enabled params
    /\ should_stop_ this = false
    /\ server_thread_ this = None /\ metrics_thread_ this = None
    /\ metrics_mutex_ this = None
    /\ server_socket_ this = -1
    /\ metrics_updated_ this = false
    /\ current_metrics_ this = MetricsData_default
    /\ (otel_enabled params = true ->
        bind_address_ this = host_part (otel_port params)
        /\ 1 <= bind_port_ this <= 65535)
    /\ (otel_enabled params = false ->
        lg = [] /\ bind_address_ this = "" /\ bind_port_ this = indeterminate).
Proof.
  unfold OtelExporter. cbn [enabled_].
  destruct (otel_enabled params) eqn:E; cbn [negb].
  - rewrite parse_bind_address_parts. cbn [bind address port logged].
    do 2 eexists. split; [reflexivity|]. cbn.
    repeat split; try discriminate. all: apply port_of_range.
  - do 2 eexists. split; [reflexivity|]. cbn.
    repeat split; discriminate.
Qed.

Lemma constructor_leaves_exporter_idle_witness :
  (exists this lg,
     OtelExporter example_params 0 = Ok (this, lg)
     /\ bind_address_ this = "127.0.0.1" /\ 1 <= bind_port_ this <= 65535)
  /\ (exists this lg,
     OtelExporter (mk_overlay_params false "no port" 3 1000) 42 = Ok (this, lg)
     /\ lg = [] /\ bind_port_ this = 42).
Proof.
  split.
  - destruct (constructor_leaves_exporter_idle example_params 0)
      as [this [lg [H [_ [_ [_ [_ [_ [_ [_ [_ [A _]]]]]]]]]]]].
    exists this, lg. split; [exact H|].
    destruct (A eq_refl) as [A1 A2]. split; [exact A1 | exact A2].
  - destruct (constructor_leaves_exporter_idle
                (mk_overlay_params false "no port" 3 1000) 42)
      as [this [lg [H [_ [_ [_ [_ [_ [_ [_ [_ [_ B]]]]]]]]]]]].
    exists this, lg. split; [exact H|].
    destruct (B eq_refl) as [B1 [_ B3]]. split; [exact B1 | exact B3].
Defined.

(* ================================================================= *)
(** ** Further properties of the renderer *)

Section EscapingMore.

Lemma escape_case_length (c : ascii) :
  (1 <= String.length (escape_case c) <= 2)%nat.
Proof.
  unfold escape_case.
  repeat match goal with
         | |- context [if ?b then _ else _] => destruct b
         end; simpl; lia.
Qed.

Lemma escape_case_plain (c : ascii) :
  plain_char c = true -> escape_case c = String c "".
Proof.
  unfold plain_char, escape_case. intros H. apply negb_true_iff in H.
  repeat (apply orb_false_iff in H; destruct H as [H ?]).
  now repeat match goal with E : Ascii.eqb _ _ = false |- _ => rewrite E; clear E end.
Qed.

Lemma escape_case_special (c : ascii) :
  plain_char c = false -> String.length (escape_case c) = 2%nat.
Proof.
  unfold plain_char, escape_case. intros H. apply negb_false_iff in H.
  destruct (Ascii.eqb c BACKSLASH); [reflexivity|].
  destruct (Ascii.eqb c DQUOTE); [reflexivity|].
  destruct (Ascii.eqb c LF); [reflexivity|].
  destruct (Ascii.eqb c CR); [reflexivity|].
  destruct (Ascii.eqb c TAB); [reflexivity | discriminate].
Qed.

Lemma escape_label_value_append (a b : string) :
  escape_label_value (a ++ b) = escape_label_value a ++ escape_label_value b.
Proof.
  induction a as [|c a IH]; [reflexivity|].
  cbn [append]. now rewrite !escape_label_value_cons, IH, append_assoc.
Qed.

Lemma escape_label_value_length (value : string) :
  (String.length value <= String.length (escape_label_value value)
   <= 2 * String.length value)%nat.
Proof.
  induction value as [|c rest IH]; [simpl; lia|].
  rewrite escape_label_value_cons, length_append.
  pose proof (escape_case_length c). simpl String.length. lia.
Qed.

Lemma escape_label_value_plain (value : string) :
  all_plain value = true <-> escape_label_value value = value.
Proof.
  induction value as [|c rest IH]; [now split|].
  rewrite escape_label_value_cons. cbn [all_plain]. split.
  - intros H. apply andb_prop in H. destruct H as [Hc Hr].
    rewrite (escape_case_plain c Hc). cbn [append]. f_equal. now apply IH.
  - intros H. destruct (plain_char c) eqn:Hc.
    + rewrite (escape_case_plain c Hc) in H. cbn [append] in H.
      injection H as H. now apply IH.
    + exfalso. apply (f_equal String.length) in H.
      rewrite length_append, (escape_case_special c Hc) in H.
      pose proof (escape_label_value_length rest). simpl in H. lia.
Qed.

Lemma read_quoted_escape_case (c : ascii) (tail : string) :
  read_quoted false (escape_case c ++ tail)
  = match read_quoted false tail with
    | Some (value, after) => Some (String c value, after)
    | None => None
    end.
Proof.
  unfold escape_case.
  destruct (Ascii.eqb c BACKSLASH) eqn:E1;
    [apply Ascii.eqb_eq in E1; subst; reflexivity|].
  destruct (Ascii.eqb c DQUOTE) eqn:E2;
    [apply Ascii.eqb_eq in E2; subst; reflexivity|].
  destruct (Ascii.eqb c LF) eqn:E3;
    [apply Ascii.eqb_eq in E3; subst; reflexivity|].
  destruct (Ascii.eqb c CR) eqn:E4;
    [apply Ascii.eqb_eq in E4; subst; reflexivity|].
  destruct (Ascii.eqb c TAB) eqn:E5;
    [apply Ascii.eqb_eq in E5; subst; reflexivity|].
  simpl. now rewrite E1, E2.
Qed.

(** However the value looks, the reader finds its closing quote. *)
Lemma read_quoted_escape_label_value (value after : string) :
  read_quoted false (escape_label_value value ++ dq ++ after)
  = Some (value, after).
Proof.
  induction value as [|c rest IH]; [reflexivity|].
  now rewrite escape_label_value_cons, append_assoc, read_quoted_escape_case, IH.
Qed.

Lemma isdigit_plain (c : ascii) : isdigit c = true -> plain_char c = true.
Proof.
  unfold plain_char. intros H.
  destruct (Ascii.eqb_spec c BACKSLASH) as [->|_]; [discriminate|].
  destruct (Ascii.eqb_spec c DQUOTE) as [->|_]; [discriminate|].
  destruct (Ascii.eqb_spec c LF) as [->|_]; [discriminate|].
  destruct (Ascii.eqb_spec c CR) as [->|_]; [discriminate|].
  destruct (Ascii.eqb_spec c TAB) as [->|_]; [discriminate | reflexivity].
Qed.

Lemma all_digits_plain (s : string) : all_digits s = true -> all_plain s = true.
Proof.
  induction s as [|c s IH]; simpl; [reflexivity|].
  intros H. apply andb_prop in H. destruct H as [Hc Hs].
  now rewrite (isdigit_plain c Hc), (IH Hs).
Qed.

Lemma all_plain_to_string (z : Z) : all_plain (to_string z) = true.
Proof.
  destruct z as [|p|p]; [reflexivity| |].
  - apply all_digits_plain, to_string_nonneg. lia.
  - rewrite to_string_neg. cbn [append all_plain].
    rewrite all_digits_plain; [reflexivity|]. apply to_string_nonneg. lia.
Qed.

Lemma skip_prefix_append (expected s : string) :
  skip_prefix expected (expected ++ s) = Some s.
Proof.
  unfold skip_prefix.
  replace (String.prefix expected (expected ++ s)) with true
    by (symmetry; apply prefix_append; now exists s).
  now rewrite drop_length_append.
Qed.

Lemma read_quoted_plain (value after : string) :
  all_plain value = true ->
  read_quoted false (value ++ dq ++ after) = Some (value, after).
Proof.
  intros H. apply escape_label_value_plain in H.
  rewrite <- H at 1. apply read_quoted_escape_label_value.
Qed.

End EscapingMore.

(** X3.  Escaping works piece by piece: the escape of a concatenation is
    the concatenation of the escapes.  It never shortens a value and at most
    doubles its length, and it changes nothing exactly in the values that
    hold none of backslash, double quote, newline, carriage return and
    tab. *)
Theorem escape_label_value_pieces_and_length :
  (forall a b,
      escape_label_value (a ++ b) = escape_label_value a ++ escape_label_value b)
  /\ (forall value,
      (String.length value <= String.length (escape_label_value value)
       <= 2 * String.length value)%nat)
  /\ (forall value, all_plain value = true <-> escape_label_value value = value).
Proof.
  split; [exact escape_label_value_append|].
  split; [exact escape_label_value_length | exact escape_label_value_plain].
Qed.

Lemma escape_label_value_pieces_and_length_witness :
  escape_label_value "game" = "game"
  /\ escape_label_value ("a" ++ String DQUOTE "b")
     = escape_label_value "a" ++ escape_label_value (String DQUOTE "b").
Proof.
  destruct escape_label_value_pieces_and_length as [A [_ C]].
  split; [apply C; reflexivity | apply A].
Defined.

(** X4.  The label set of a rendered sample can be read back: whatever the
    process name and the graphics API name contain, double quotes, commas
    and label-like text included, a reader that takes each value up to its
    first unescaped double quote recovers exactly the process name, the
    graphics API name and the decimal text of the pid, with nothing left
    over; for a pid of 1 up to INT_MAX, [stoi] turns that text back into
    the pid. *)
Theorem label_set_reads_back (cm : MetricsData) :
  read_labels (label_set cm)
  = Some (process_name cm, graphics_api cm, to_string (process_pid cm))
  /\ (1 <= process_pid cm <= INT_MAX ->
      stoi (to_string (process_pid cm)) = Ok (process_pid cm)).
Proof.
  split; [|apply stoi_to_string].
  unfold label_set, read_labels.
  rewrite <- (append_assoc "process_name=" dq), skip_prefix_append.
  rewrite read_quoted_escape_label_value.
  rewrite <- (append_assoc ",graphics_api=" dq), skip_prefix_append.
  rewrite read_quoted_escape_label_value.
  rewrite <- (append_assoc ",pid=" dq), skip_prefix_append.
  replace (to_string (process_pid cm) ++ dq)
    with (to_string (process_pid cm) ++ dq ++ "") by reflexivity.
  now rewrite read_quoted_plain by apply all_plain_to_string.
Qed.

Lemma label_set_reads_back_witness :
  read_labels (label_set game_snapshot) = Some ("game", "vulkan", "1234")
  /\ stoi (to_string (process_pid game_snapshot)) = Ok 1234.
Proof.
  destruct (label_set_reads_back game_snapshot) as [A B].
  split; [exact A|]. apply B. unfold INT_MAX. simpl. lia.
Defined.

(* ================================================================= *)
(** ** Further properties of the responder *)

Section Window.

Lemma take_take (n : nat) (s : string) : take n (take n s) = take n s.
Proof.
  revert s; induction n as [|n IH]; intros [|c s]; simpl; try reflexivity.
  now rewrite IH.
Qed.

Lemma take_empty_iff (n : nat) (s : string) : take (S n) s = "" <-> s = "".
Proof. destruct s; simpl; split; congruence. Qed.

Lemma c_str_cut (a tail : string) : c_str (a ++ String NUL tail) = c_str a.
Proof.
  unfold c_str. induction a as [|x a IH]; [reflexivity|].
  cbn [append find]. destruct (Ascii.eqb x NUL); [reflexivity|].
  destruct (find NUL (a ++ String NUL tail)) as [n|],
           (find NUL a) as [m|]; cbn [option_map take] in *;
    now rewrite ?IH.
Qed.

Lemma request_text_cut (a tail : string) :
  (String.length a < 1023)%nat ->
  request_text (a ++ String NUL tail) = c_str a.
Proof.
  intros H. unfold request_text.
  rewrite take_append_le by lia.
  destruct (1023 - String.length a)%nat as [|k] eqn:E; [lia|].
  cbn [take]. rewrite append_assoc. cbn [append]. apply c_str_cut.
Qed.

Lemma handle_metrics_request_text (cm : MetricsData) (now : Z) (data data' : string) :
  data <> "" -> data' <> "" -> request_text data = request_text data' ->
  handle_metrics_request cm now (conn_bytes data)
  = handle_metrics_request cm now (conn_bytes data').
Proof.
  intros H H' E. rewrite !handle_metrics_request_bytes by assumption.
  now rewrite E.
Qed.

End Window.

(** X5.  The handler decides on a window of the request: only the first
    1023 bytes count, and of those only the bytes before the first NUL.
    Bytes beyond the window never change the response; in particular a
    GET /metrics that comes after a NUL, or after 1023 other bytes, is not
    seen. *)
Theorem handle_metrics_request_window (cm : MetricsData) (now : Z) :
  (forall data,
      handle_metrics_request cm now (conn_bytes data)
      = handle_metrics_request cm now (conn_bytes (take 1023 data)))
  /\ (forall a tail tail',
      (String.length a < 1023)%nat ->
      handle_metrics_request cm now (conn_bytes (a ++ String NUL tail))
      = handle_metrics_request cm now (conn_bytes (a ++ String NUL tail')))
  /\ (forall a tail,
      (String.length a < 1023)%nat ->
      ~ contains (c_str a) "GET /metrics" ->
      handle_metrics_request cm now (conn_bytes (a ++ String NUL tail))
      = [not_found]).
Proof.
  split; [|split].
  - intros data. destruct data as [|c data]; [reflexivity|].
    apply handle_metrics_request_text; try discriminate.
    unfold request_text. now rewrite take_take.
  - intros a tail tail' H.
    apply handle_metrics_request_text.
    + destruct a; discriminate.
    + destruct a; discriminate.
    + now rewrite !request_text_cut.
  - intros a tail H Hc.
    rewrite handle_metrics_request_bytes by (destruct a; discriminate).
    rewrite request_text_cut by exact H.
    destruct (strstr (c_str a) "GET /metrics") eqn:E; [|reflexivity].
    exfalso. apply Hc, strstr_contains. congruence.
Qed.

Lemma handle_metrics_request_window_witness :
  handle_metrics_request game_snapshot 17
    (conn_bytes ("GET /" ++ String NUL "GET /metrics"))
  = handle_metrics_request game_snapshot 17
    (conn_bytes ("GET /" ++ String NUL ""))
  /\ handle_metrics_request game_snapshot 17
       (conn_bytes ("GET /" ++ String NUL "GET /metrics"))
     = [not_found].
Proof.
  destruct (handle_metrics_request_window game_snapshot 17) as [_ [A B]].
  split.
  - apply (A "GET /" "GET /metrics" ""). simpl. lia.
  - apply (B "GET /" "GET /metrics"); [simpl; lia|].
    intros H. apply strstr_contains in H. apply H. reflexivity.
Defined.

(* ================================================================= *)
(** ** Further properties of the sampler *)

(** X6.  [update_metrics] replaces the snapshot as a whole.  Called with
    the mutex free it returns; the snapshot it leaves is determined by the
    live source alone, so nothing of an earlier snapshot survives and of two
    updates in a row only the second shows; apart from the snapshot and the
    sampled flag the exporter is as before, the mutex free again. *)
Theorem update_metrics_replaces_snapshot
  (engines : N -> string) (self self' : thread_id) (host host' : Live.process)
  (this other : exporter) :
  metrics_mutex_ this = None -> metrics_mutex_ other = None ->
  exists this1 other1,
    update_metrics engines self host this = Returns this1
    /\ update_metrics engines self' host other = Returns other1
    /\ current_metrics_ this1 = current_metrics_ other1
    /\ update_metrics engines self' host' this1
       = update_metrics engines self' host' this
    /\ this1 = set_metrics_updated true
                 (set_current_metrics (current_metrics_ this1) this).
Proof.
  destruct this as [en ss st mt mm sk mu ba bp cm],
           other as [en' ss' st' mt' mm' sk' mu' ba' bp' cm'].
  cbn [metrics_mutex_]. intros -> ->.
  do 2 eexists. split; [reflexivity|]. split; [reflexivity|].
  repeat split.
Qed.

Lemma update_metrics_replaces_snapshot_witness :
  exists this1 other1,
    update_metrics example_engines 1%nat (example_host None) idle_exporter
    = Returns this1
    /\ update_metrics example_engines 2%nat (example_host None)
         (set_current_metrics game_snapshot idle_exporter)
       = Returns other1
    /\ current_metrics_ this1 = current_metrics_ other1.
Proof.
  destruct (update_metrics_replaces_snapshot example_engines 1%nat 2%nat
              (example_host None) (example_host None) idle_exporter
              (set_current_metrics game_snapshot idle_exporter)
              eq_refl eq_refl)
    as [this1 [other1 [A [B [C _]]]]].
  exists this1, other1. split; [exact A|]. split; [exact B | exact C].
Defined.

(** X7.  The sampler loop never gets a sample through.  Whenever [run],
    entered with the mutex free, returns or is seen still looping, the
    snapshot and the sampled flag are what they were and the mutex is free;
    it has either left the loop or not met a single wake-up.  It leaves the
    loop, with the stop flag set, when the flag is set on entry or a stop is
    requested at the first wake-up. *)
Theorem run_never_samples
  (engines : N -> string) (self : thread_id) (this : exporter) :
  metrics_mutex_ this = None ->
  (forall ws r,
      run engines self ws this = Returns r ->
      current_metrics_ (snd r) = current_metrics_ this
      /\ metrics_updated_ (snd r) = metrics_updated_ this
      /\ metrics_mutex_ (snd r) = None
      /\ (fst r = loop_exit \/ ws = []))
  /\ (forall w ws,
      should_stop_ this = true \/ stop_requested w = true ->
      exists this',
        run engines self (w :: ws) this = Returns (loop_exit, this')
        /\ should_stop_ this' = true
        /\ current_metrics_ this' = current_metrics_ this).
Proof.
  destruct this as [en ss st mt mm sk mu ba bp cm].
  cbn [metrics_mutex_]. intros ->. split.
  - intros [|w ws] r.
    + cbn [run]. intros H. injection H as <-. cbn. auto.
    + cbn [run]. unfold run_iteration, update_metrics.
      cbn [should_stop_ metrics_mutex_ lock and_then set_metrics_mutex].
      destruct ss; cbn [and_then fst snd].
      * intros H. injection H as <-. cbn. auto.
      * destruct (stop_requested w); cbn [and_then fst snd].
        -- intros H. injection H as <-. cbn. auto.
        -- rewrite Nat.eqb_refl. cbn [and_then]. discriminate.
  - intros w ws H. cbn [run]. unfold run_iteration.
    cbn [should_stop_ metrics_mutex_ lock and_then set_metrics_mutex].
    destruct ss; cbn [and_then fst snd].
    + eexists. split; [reflexivity|]. now split.
    + destruct H as [H|H]; [discriminate|]. rewrite H.
      cbn [and_then fst snd]. eexists. split; [reflexivity|]. now split.
Qed.

Lemma run_never_samples_witness :
  exists this',
    run example_engines 2%nat
      [mk_wakeup true (example_host None); mk_wakeup false (example_host None)]
      idle_exporter
    = Returns (loop_exit, this')
    /\ should_stop_ this' = true
    /\ current_metrics_ this' = MetricsData_default.
Proof.
  destruct (run_never_samples example_engines 2%nat idle_exporter eq_refl)
    as [_ B].
  apply (B (mk_wakeup true (example_host None))
           [mk_wakeup false (example_host None)]).
  right. reflexivity.
Defined.

(* ================================================================= *)
(** ** Further properties of the lifecycle controller *)

Section LifecycleMore.

Lemma start_cases (this : exporter) :
  (negb (enabled_ this) || joinable (server_thread_ this) = true
   /\ start this = Returns this)
  \/ (enabled_ this = true /\ server_thread_ this = None
      /\ start this
         = and_then (assign_thread (metrics_thread_ this) entry_run) (fun t =>
           Returns (mk_exporter true false
                      (Some (spawn_thread entry_start_delay_timer false)) t
                      (metrics_mutex_ this) (server_socket_ this)
                      (metrics_updated_ this) (bind_address_ this)
                      (bind_port_ this) (current_metrics_ this)))).
Proof.
  destruct this as [en ss st mt mm sk mu ba bp cm]. unfold start. cbn.
  destruct en; cbn; [|now left].
  destruct st as [th|]; cbn; [now left|]. right. repeat split.
Qed.

Lemma well_formed_start (this this' : exporter) :
  well_formed this -> start this = Returns this' -> well_formed this'.
Proof.
  intros [W1 [W2 W3]] H.
  destruct (start_cases this) as [[_ E]|[He [Hs E]]]; rewrite E in H.
  - injection H as <-. exact (conj W1 (conj W2 W3)).
  - rewrite Hs in W1. cbn in W1.
    destruct (metrics_thread_ this) as [th|]; [discriminate|].
    cbn in H. injection H as <-. unfold well_formed. cbn.
    split; [reflexivity|]. split; [discriminate|]. intros _. now apply W3.
Qed.

Lemma well_formed_stop (this this' : exporter) (fds fds' : list Z) :
  well_formed this -> stop this fds = Returns (this', fds') -> well_formed this'.
Proof.
  intros [W1 [W2 W3]] H.
  destruct (stop_inversion _ _ _ _ H) as [Hs Hm].
  rewrite (stop_returns this fds Hs Hm) in H. injection H as <- <-.
  unfold well_formed. cbn. split; [reflexivity|]. split; [reflexivity|]. exact W3.
Qed.

Lemma well_formed_reachable (this : exporter) :
  reachable this -> well_formed this.
Proof.
  induction 1 as [params ind this lg H | this this' _ IH H
                  | this fds this' fds' _ IH H | this this' _ IH H].
  - unfold OtelExporter in H. cbn [enabled_] in H.
    destruct (otel_enabled params); cbn [negb] in H.
    + rewrite parse_bind_address_parts in H. cbn in H. injection H as <- _.
      unfold well_formed. cbn. split; [reflexivity|]. split; [reflexivity|].
      intros _. apply port_of_range.
    + injection H as <- _. unfold well_formed. cbn.
      split; [reflexivity|]. split; [reflexivity | discriminate].
  - now apply (well_formed_start this).
  - now apply (well_formed_stop this this' fds fds').
  - destruct IH as [W1 [W2 W3]]. destruct H as [He [_ [Hp [Js Jm]]]].
    unfold well_formed. rewrite Js, Jm, Hp, He.
    exact (conj W1 (conj W2 W3)).
Qed.

End LifecycleMore.

(** X8.  In every state that an exporter reaches from its constructor by
    calls of [start] and [stop], with the background threads at work in
    between, the two task handles go together (both own a thread or neither
    does), a disabled exporter owns no thread, and an enabled one has a port
    of 1..65535.  Therefore [start] never ends in [std::terminate] by
    assigning to a handle that still owns a thread: it returns. *)
Theorem reachable_states_start_safely (this : exporter) :
  reachable this ->
  well_formed this /\ exists this', start this = Returns this'.
Proof.
  intros H. pose proof (well_formed_reachable this H) as W.
  split; [exact W|]. destruct W as [W1 _].
  destruct (start_cases this) as [[_ E]|[He [Hs E]]]; rewrite E.
  - now exists this.
  - rewrite Hs in W1. cbn in W1.
    destruct (metrics_thread_ this) as [th|]; [discriminate|].
    cbn. eexists. reflexivity.
Qed.

Lemma reachable_states_start_safely_witness :
  well_formed idle_exporter /\ exists this', start idle_exporter = Returns this'.
Proof.
  apply reachable_states_start_safely.
  apply (reach_constructed example_params 0 idle_exporter []). reflexivity.
Defined.

(** X9.  [start] is idempotent: a second [start] right after one that
    returned changes nothing.  On a disabled exporter [start] changes
    nothing at all, whatever its state. *)
Theorem start_twice_is_start_once :
  (forall this this1, start this = Returns this1 -> start this1 = Returns this1)
  /\ (forall this, is_enabled this = false -> start this = Returns this).
Proof.
  split.
  - intros this this1 H.
    destruct (start_cases this) as [[_ E]|[He [Hs E]]]; rewrite E in H.
    + injection H as <-. exact E.
    + destruct (metrics_thread_ this) as [th|]; [discriminate|].
      cbn in H. injection H as <-. reflexivity.
  - intros this H. unfold is_enabled in H.
    destruct (start_cases this) as [[_ E]|[He _]]; [exact E | congruence].
Qed.

Lemma start_twice_is_start_once_witness :
  (exists this1, start idle_exporter = Returns this1
                 /\ start this1 = Returns this1)
  /\ start (mk_exporter false false None None None (-1) false "" 0
              MetricsData_default)
     = Returns (mk_exporter false false None None None (-1) false "" 0
                  MetricsData_default).
Proof.
  destruct start_twice_is_start_once as [A B].
  split.
  - eexists. split; [reflexivity|]. apply (A idle_exporter). reflexivity.
  - apply B. reflexivity.
Defined.

(* ================================================================= *)
(** ** The listener *)

Section ListenerFacts.

Lemma close_fresh (fd : Z) (fds : list Z) :
  ~ In fd fds -> close fd (fd :: fds) = fds.
Proof.
  intros H. unfold close. cbn [remove].
  destruct (Z.eq_dec fd fd) as [_|N]; [now apply notin_remove | congruence].
Qed.

Lemma digit_in_dotted_set (ch : ascii) (d : Z) :
  digit_of ch = Some d -> mem_char ch "0123456789." = true.
Proof.
  destruct ch as [[|] [|] [|] [|] [|] [|] [|] [|]];
    vm_compute; intros H; first [reflexivity | discriminate].
Qed.

(** A character that is neither a digit nor a dot makes [inet_pton] fail,
    wherever it stands. *)
Lemma inet_pton4_rejects (src : string) (saw_digit : bool) (octets : nat)
    (tp : Z) (tmp : list Z) :
  has_char_not_of "0123456789." src = true ->
  inet_pton4 src saw_digit octets tp tmp = None.
Proof.
  revert saw_digit octets tp tmp.
  induction src as [|ch rest IH]; intros saw_digit octets tp tmp H;
    [discriminate|].
  cbn [has_char_not_of] in H. cbn [inet_pton4].
  destruct (digit_of ch) as [d|] eqn:D.
  - rewrite (digit_in_dotted_set ch d D) in H. cbn in H.
    destruct (saw_digit && (tp =? 0)); [reflexivity|].
    destruct (255 <? tp * 10 + d); [reflexivity|].
    destruct saw_digit; [now apply IH|].
    destruct (4 <? octets + 1)%nat; [reflexivity | now apply IH].
  - destruct (Ascii.eqb_spec ch ".") as [->|_]; [|reflexivity].
    cbn in H. destruct saw_digit; [|reflexivity]. cbn.
    destruct (octets =? 4)%nat; [reflexivity | now apply IH].
Qed.

Lemma c_str_no_nul (s : string) : find NUL s = None -> c_str s = s.
Proof. unfold c_str. now intros ->. Qed.

Lemma inet_pton_values (src : string) :
  fst (inet_pton src) = 0 \/ fst (inet_pton src) = 1.
Proof. unfold inet_pton. destruct (inet_pton4 _ _ _ _ _); cbn; auto. Qed.

(** The four ways in which the set-up gives up. *)
Lemma setup_http_server_gives_up (calls : listener_calls) (polls : list poll) (s : server) :
  ~ In (socket_returns calls) (srv_fds s) ->
  socket_returns calls < 0
  \/ fst (inet_pton (bind_address_ (srv_this s))) <= 0
  \/ bind_returns calls < 0
  \/ listen_returns calls < 0 ->
  exists k,
    setup_http_server calls polls s
    = Returns (loop_exit,
               mk_server (set_server_socket k (srv_this s)) (srv_fds s)
                 (srv_sent s)
                 (srv_log s ++ reuseaddr_warning calls
                  ++ [matching_error calls (srv_this s)]))
    /\ k < 0.
Proof.
  intros Hfresh H. destruct s as [this fds sent lg].
  destruct this as [en ss st mt mm sk mu ba bp cm].
  cbn [srv_this srv_fds srv_sent srv_log bind_address_ bind_port_] in *.
  unfold setup_http_server, matching_error, reuseaddr_warning.
  cbn [srv_this srv_fds srv_sent srv_log set_server_socket server_socket_
       bind_address_ bind_port_ enabled_ should_stop_ server_thread_
       metrics_thread_ metrics_mutex_ metrics_updated_ current_metrics_].
  destruct (Z.ltb_spec (socket_returns calls) 0) as [L|L].
  - exists (socket_returns calls).
    destruct (Z.leb_spec 0 (socket_returns calls)); [lia|]. cbn [andb app].
    split; [reflexivity | exact L].
  - rewrite (close_fresh _ _ Hfresh).
    destruct (Z.leb_spec 0 (socket_returns calls)); [|lia]. cbn [andb].
    destruct (Z.leb_spec (fst (inet_pton ba)) 0) as [I|I].
    { exists (-1). rewrite <- app_assoc. split; [reflexivity | lia]. }
    destruct (Z.ltb_spec (bind_returns calls) 0) as [B|B].
    { exists (-1). rewrite <- app_assoc. split; [reflexivity | lia]. }
    destruct (Z.ltb_spec (listen_returns calls) 0) as [Li|Li].
    { exists (-1). rewrite <- app_assoc. split; [reflexivity | lia]. }
    lia.
Qed.

End ListenerFacts.

(** *** The accept loop and the snapshot mutex *)

Section ThreadedListener.

Variable self : thread_id.







End ThreadedListener.

(** X10.  When the set-up fails the listener gives up cleanly.  If
    [socket], [inet_pton], [bind] or [listen] fails, [setup_http_server]
    returns without entering the accept loop: the socket handle is left
    negative, the descriptor it had opened is closed again so that the
    process holds the descriptors it held before, nothing is sent, and the
    log ends with the matching error, the error of the first call that
    failed; before it the log gained at most the warning of a failed
    [setsockopt], and that only when a socket had been created. *)
Theorem setup_http_server_failure_is_clean
  (calls : listener_calls) (polls : list poll) (s : server) :
  ~ In (socket_returns calls) (srv_fds s) ->
  socket_returns calls < 0
  \/ fst (inet_pton (bind_address_ (srv_this s))) <= 0
  \/ bind_returns calls < 0
  \/ listen_returns calls < 0 ->
  exists s' e,
    setup_http_server calls polls s = Returns (loop_exit, s')
    /\ server_socket_ (srv_this s') < 0
    /\ srv_fds s' = srv_fds s
    /\ srv_sent s' = srv_sent s
    /\ List.last (srv_log s') (info_starting_in 0) = e
    /\ (e = error_create_socket
        \/ e = error_invalid_bind_address (bind_address_ (srv_this s))
        \/ e = error_bind (bind_address_ (srv_this s)) (bind_port_ (srv_this s))
        \/ e = error_listen)
    /\ e = (if socket_returns calls <? 0 then error_create_socket
            else if fst (inet_pton (bind_address_ (srv_this s))) <=? 0
            then error_invalid_bind_address (bind_address_ (srv_this s))
            else if bind_returns calls <? 0
            then error_bind (bind_address_ (srv_this s)) (bind_port_ (srv_this s))
            else error_listen)
    /\ e = matching_error calls (srv_this s)
    /\ srv_log s'
       = (srv_log s
          ++ (if (0 <=? socket_returns calls) && (setsockopt_returns calls <? 0)
              then [warn_reuseaddr] else [])
          ++ [e])%list.
Proof.
  intros Hf H.
  destruct (setup_http_server_gives_up calls polls s Hf H) as [k [E Hk]].
  eexists. exists (matching_error calls (srv_this s)).
  split; [exact E|]. cbn [srv_this srv_fds srv_sent srv_log snd].
  split; [destruct (srv_this s); exact Hk|].
  split; [reflexivity|]. split; [reflexivity|].
  split; [rewrite app_assoc; apply last_last|].
  split.
  { unfold matching_error.
    destruct (socket_returns calls <? 0); [now left|].
    destruct (fst (inet_pton (bind_address_ (srv_this s))) <=? 0);
      [now right; left|].
    destruct (bind_returns calls <? 0); [now right; right; left|].
    now right; right; right. }
  split; [reflexivity|]. split; reflexivity.
Qed.

Lemma setup_http_server_failure_is_clean_witness :
  exists s',
    setup_http_server (mk_listener_calls 7 (-1) (-1) (-1)) [] example_server
    = Returns (loop_exit, s')
    /\ server_socket_ (srv_this s') < 0
    /\ srv_fds s' = [3]
    /\ srv_log s' = [warn_reuseaddr; error_bind "127.0.0.1" 9090].
Proof.
  destruct (setup_http_server_failure_is_clean
              (mk_listener_calls 7 (-1) (-1) (-1)) [] example_server)
    as [s' [e [A [B [C [_ [_ [_ [D [_ E]]]]]]]]]].
  - cbn. intros [H|[]]. discriminate.
  - right; right; left. cbn. lia.
  - exists s'. split; [exact A|]. split; [exact B|].
    split; [exact C|]. rewrite E, D. reflexivity.
Defined.

(** X11.  The resolver's check of the address and the listener disagree on
    names.  Every address that [inet_pton] accepts passes the resolver's
    check without a warning; but an address with a character other than a
    digit or a dot is refused by [inet_pton], so that the listener logs an
    invalid bind address and never listens, whatever the system calls
    return.  The name localhost is such an address, and the resolver lets it
    pass without a warning. *)
Theorem bind_address_check_and_listener :
  (forall a, find NUL a = None -> fst (inet_pton a) = 1 ->
             validate_address a = [])
  /\ (forall calls polls s,
      0 <= socket_returns calls ->
      ~ In (socket_returns calls) (srv_fds s) ->
      has_char_not_of "0123456789." (c_str (bind_address_ (srv_this s))) = true ->
      exists s',
        setup_http_server calls polls s = Returns (loop_exit, s')
        /\ server_socket_ (srv_this s') = -1
        /\ srv_fds s' = srv_fds s
        /\ srv_sent s' = srv_sent s
        /\ List.last (srv_log s') (info_starting_in 0)
           = error_invalid_bind_address (bind_address_ (srv_this s)))
  /\ (validate_address "localhost" = []
      /\ has_char_not_of "0123456789." (c_str "localhost") = true).
Proof.
  split; [|split; [|split; reflexivity]].
  - intros a Hn Ha. unfold inet_pton in Ha. rewrite (c_str_no_nul a Hn) in Ha.
    unfold validate_address.
    destruct (has_char_not_of "0123456789." a) eqn:E.
    + rewrite (inet_pton4_rejects a false 0 0 [] E) in Ha. discriminate.
    + now rewrite !andb_false_r.
  - intros calls polls s Hs Hf Hc.
    destruct s as [this fds sent lg].
    destruct this as [en ss st mt mm sk mu ba bp cm].
    cbn [srv_this srv_fds srv_sent srv_log bind_address_] in *.
    unfold setup_http_server.
    cbn [srv_this srv_fds srv_sent srv_log set_server_socket server_socket_
         bind_address_ bind_port_ enabled_ should_stop_ server_thread_
         metrics_thread_ metrics_mutex_ metrics_updated_ current_metrics_].
    destruct (Z.ltb_spec (socket_returns calls) 0); [lia|].
    unfold inet_pton at 1. rewrite (inet_pton4_rejects _ false 0 0 [] Hc).
    cbn [fst]. cbn [Z.leb Z.compare].
    eexists. split; [reflexivity|]. cbn.
    split; [reflexivity|]. split; [now apply close_fresh|].
    split; [reflexivity|]. apply last_last.
Qed.

Lemma bind_address_check_and_listener_witness :
  validate_address "192.168.1.20" = []
  /\ exists s',
       setup_http_server example_calls []
         (mk_server (set_bind "localhost" 9090 idle_exporter) [3] [] [])
       = Returns (loop_exit, s')
       /\ server_socket_ (srv_this s') = -1.
Proof.
  destruct bind_address_check_and_listener as [A [B _]].
  split.
  - apply A; reflexivity.
  - destruct (B example_calls []
                (mk_server (set_bind "localhost" 9090 idle_exporter) [3] [] []))
      as [s' [E [K _]]].
    + cbn. lia.
    + cbn. intros [H|[]]. discriminate.
    + reflexivity.
    + exists s'. split; [exact E | exact K].
Defined.





(** X14.  The listener thread serves nobody unless everything before the
    accept loop succeeded: if [start_delay_timer] returns (or is seen still
    serving) having sent anything, then no stop was requested by the end of
    the start delay, and [socket], [inet_pton], [bind] and [listen] all
    succeeded.  When a stop is requested during the delay, no socket is
    created at all. *)
Theorem start_delay_timer_serves_only_when_set_up
  (params : overlay_params) (stop_after_sleep : bool)
  (calls : listener_calls) (polls : list poll) (s : server) :
  (forall r,
      start_delay_timer params stop_after_sleep calls polls s = Returns r ->
      srv_sent (snd r) <> srv_sent s ->
      stop_after_sleep = false
      /\ should_stop_ (srv_this s) = false
      /\ 0 <= socket_returns calls
      /\ fst (inet_pton (bind_address_ (srv_this s))) = 1
      /\ 0 <= bind_returns calls
      /\ 0 <= listen_returns calls)
  /\ (stop_after_sleep = true ->
      exists s',
        start_delay_timer params stop_after_sleep calls polls s
        = Returns (loop_exit, s')
        /\ srv_this s' = srv_this s
        /\ srv_fds s' = srv_fds s
        /\ srv_sent s' = srv_sent s).
Proof.
  split.
  - intros r H Hsent. unfold start_delay_timer in H.
    cbn [srv_this srv_fds srv_sent srv_log] in H.
    destruct (should_stop_ (srv_this s)) eqn:Es; cbn [orb negb] in H;
      [injection H as <-; now contradiction Hsent|].
    destruct stop_after_sleep; cbn [negb] in H;
      [injection H as <-; now contradiction Hsent|].
    unfold setup_http_server in H.
    destruct s as [this fds sent lg].
    destruct this as [en ss st mt mm sk mu ba bp cm].
    cbn [srv_this srv_fds srv_sent srv_log set_server_socket server_socket_
         bind_address_ bind_port_ enabled_ should_stop_ server_thread_
         metrics_thread_ metrics_mutex_ metrics_updated_ current_metrics_] in *.
    destruct (Z.ltb_spec (socket_returns calls) 0);
      [injection H as <-; now contradiction Hsent|].
    destruct (Z.leb_spec (fst (inet_pton ba)) 0);
      [injection H as <-; now contradiction Hsent|].
    destruct (Z.ltb_spec (bind_returns calls) 0);
      [injection H as <-; now contradiction Hsent|].
    destruct (Z.ltb_spec (listen_returns calls) 0);
      [injection H as <-; now contradiction Hsent|].
    repeat split; try assumption.
    destruct (inet_pton_values ba); lia.
  - intros ->. unfold start_delay_timer. rewrite orb_true_r. cbn [negb].
    eexists. split; [reflexivity|]. now repeat split.
Qed.

Lemma start_delay_timer_serves_only_when_set_up_witness :
  (exists s',
     start_delay_timer example_params true example_calls
       [mk_poll false 1 false true 8 (conn_bytes "GET /metrics") 5]
       example_server
     = Returns (loop_exit, s')
     /\ srv_fds s' = [3] /\ srv_sent s' = [])
  /\ fst (inet_pton (bind_address_ (srv_this example_server))) = 1.
Proof.
  destruct (start_delay_timer_serves_only_when_set_up example_params true
              example_calls
              [mk_poll false 1 false true 8 (conn_bytes "GET /metrics") 5]
              example_server) as [_ B].
  destruct (start_delay_timer_serves_only_when_set_up example_params false
              example_calls
              [mk_poll false 1 false true 8 (conn_bytes "GET /metrics") 5]
              example_server) as [A _].
  split.
  - destruct (B eq_refl) as [s' [E [_ [F S]]]].
    exists s'. split; [exact E|]. split; [exact F | exact S].
  - eapply A; [reflexivity|]. cbn. discriminate.
Defined.

(* ================================================================= *)
(** ** Addresses without a colon *)

Section NoColon.

Lemma find_take_first (c : ascii) (s : string) (n : nat) :
  find c s = Some n -> find c (take n s) = None.
Proof.
  revert n; induction s as [|x s IH]; intros n H; [discriminate|].
  cbn [find] in H. destruct (Ascii.eqb x c) eqn:E.
  - now injection H as <-.
  - destruct (find c s) as [k|]; [|discriminate].
    injection H as <-. cbn [take find]. rewrite E.
    now rewrite (IH k eq_refl).
Qed.

End NoColon.

(** X18.  The resolved address never holds a colon: the bind string is cut
    at its first colon, so an address with colons in it, an IPv6 literal for
    one, cannot be configured, and whatever follows a second colon belongs
    to the port part. *)
Theorem parse_bind_address_address_has_no_colon (input : string) (target : bind_target) :
  parse_bind_address input = Ok target ->
  find ":" (address target) = None
  /\ (forall n, find ":" input = Some n ->
                input = address target ++ ":" ++ port_part input).
Proof.
  rewrite parse_bind_address_parts. intros H. injection H as <-.
  cbn [address]. unfold host_part, port_part.
  destruct (find ":" input) as [n|] eqn:E.
  - split; [now apply find_take_first|].
    intros k Hk. injection Hk as <-.
    rewrite <- (take_drop n input) at 1. f_equal.
    revert n E. induction input as [|x s IH]; intros n E;
      [discriminate|].
    cbn [find] in E. destruct (Ascii.eqb_spec x ":") as [->|N].
    + injection E as <-. reflexivity.
    + destruct (find ":" s) as [k|]; [|discriminate].
      injection E as <-. cbn [drop Nat.add]. now apply IH.
  - split; [reflexivity | discriminate].
Qed.

Lemma parse_bind_address_address_has_no_colon_witness :
  find ":" "[" = None
  /\ "[::1]:8080" = "[" ++ ":" ++ port_part "[::1]:8080".
Proof.
  destruct (parse_bind_address_address_has_no_colon "[::1]:8080"
              (mk_bind_target "[" 16969
                 [error_parse_port ":1]:8080"; warn_address_format "["])
              eq_refl) as [A B].
  split; [exact A|]. apply (B 1%nat). reflexivity.
Defined.

(* ================================================================= *)
(** ** Dotted quads and percentages *)

Section Enumerations.

Lemma small_nat_listed (bound : nat) (n : Z) :
  0 <= n < Z.of_nat bound -> In n (map Z.of_nat (seq 0 bound)).
Proof.
  intros H. apply in_map_iff. exists (Z.to_nat n). split; [lia|].
  apply in_seq. lia.
Qed.

Lemma octet_step_listed :
  Forall (fun n => forall k tmp rest,
              (k < 4)%nat ->
              inet_pton4 (to_string n ++ rest) false k 0 tmp
              = inet_pton4 rest true (k + 1) n tmp)
         (map Z.of_nat (seq 0 256)).
Proof.
  let l := eval vm_compute in (map Z.of_nat (seq 0 256)) in
  change (map Z.of_nat (seq 0 256)) with l.
  repeat (apply Forall_cons;
          [ intros k tmp rest Hk;
            destruct k as [|[|[|[|k]]]]; [reflexivity .. | lia]
          | ]).
  apply Forall_nil.
Qed.

Lemma octet_step (n : Z) (k : nat) (tmp : list Z) (rest : string) :
  0 <= n <= 255 -> (k < 4)%nat ->
  inet_pton4 (to_string n ++ rest) false k 0 tmp
  = inet_pton4 rest true (k + 1) n tmp.
Proof.
  intros Hn. pose proof octet_step_listed as F.
  rewrite Forall_forall in F. apply F, small_nat_listed. lia.
Qed.

Lemma find_nul_to_string (z : Z) : find NUL (to_string z) = None.
Proof.
  assert (D : forall s, all_digits s = true -> find NUL s = None).
  { induction s as [|x s IH]; simpl; [reflexivity|].
    intros H. apply andb_prop in H. destruct H as [Hx Hs].
    destruct (Ascii.eqb_spec x NUL) as [->|_]; [discriminate|].
    now rewrite (IH Hs). }
  destruct z as [|p|p]; [reflexivity| |].
  - apply D, to_string_nonneg. lia.
  - rewrite to_string_neg. apply find_append_none. split; [reflexivity|].
    apply D, to_string_nonneg. lia.
Qed.

Lemma percent_printed_listed :
  forallb (fun n => (format_fixed 1 (float_of_int n) =? to_string n ++ ".0")%string)
          (map Z.of_nat (seq 0 101)) = true.
Proof. vm_compute. reflexivity. Qed.

End Enumerations.

Lemma inet_pton_dotted_quad (a b c d : Z) :
  0 <= a <= 255 -> 0 <= b <= 255 -> 0 <= c <= 255 -> 0 <= d <= 255 ->
  inet_pton (to_string a ++ "." ++ to_string b ++ "." ++ to_string c
             ++ "." ++ to_string d)
  = (1, [a; b; c; d]).
Proof.
  intros Ha Hb Hc Hd. unfold inet_pton.
  rewrite c_str_no_nul
    by (repeat (apply find_append_none; split);
        first [apply find_nul_to_string | reflexivity]).
  rewrite (octet_step a 0) by (trivial; lia).
  cbn [append inet_pton4 digit_of]. rewrite (octet_step b 1) by (trivial; lia).
  cbn [append inet_pton4 digit_of]. rewrite (octet_step c 2) by (trivial; lia).
  cbn [append inet_pton4 digit_of].
  rewrite <- (append_nil_r (to_string d)).
  rewrite (octet_step d 3) by (trivial; lia).
  reflexivity.
Qed.

(** X15.  Every dotted quad gets the listener as far as the accept loop:
    when the bind address is four numbers of 0..255 written in decimal with
    dots between them, [inet_pton] returns 1 with those four numbers, and if
    [socket], [bind] and [listen] succeed, [setup_http_server] keeps the
    descriptor as its listening socket, logs that it listens and runs the
    accept loop; a failing [setsockopt] only adds a warning. *)
Theorem dotted_quad_reaches_accept_loop
  (a b c d : Z) (calls : listener_calls) (polls : list poll) (s : server) :
  0 <= a <= 255 -> 0 <= b <= 255 -> 0 <= c <= 255 -> 0 <= d <= 255 ->
  bind_address_ (srv_this s)
  = to_string a ++ "." ++ to_string b ++ "." ++ to_string c ++ "." ++ to_string d ->
  0 <= socket_returns calls -> 0 <= bind_returns calls ->
  0 <= listen_returns calls ->
  inet_pton (bind_address_ (srv_this s)) = (1, [a; b; c; d])
  /\ setup_http_server calls polls s
     = accept_loop polls
         (mk_server (set_server_socket (socket_returns calls) (srv_this s))
            (socket_returns calls :: srv_fds s) (srv_sent s)
            ((srv_log s
              ++ (if setsockopt_returns calls <? 0 then [warn_reuseaddr] else []))
             ++ [info_listening (bind_address_ (srv_this s))
                   (bind_port_ (srv_this s))])).
Proof.
  intros Ha Hb Hc Hd E Hs Hbi Hl.
  pose proof (inet_pton_dotted_quad a b c d Ha Hb Hc Hd) as I.
  rewrite <- E in I. split; [exact I|].
  destruct s as [this fds sent lg].
  destruct this as [en ss st mt mm sk mu ba bp cm].
  cbn [srv_this srv_fds srv_sent srv_log bind_address_ bind_port_] in *.
  unfold setup_http_server.
  cbn [srv_this srv_fds srv_sent srv_log set_server_socket server_socket_
       bind_address_ bind_port_ enabled_ should_stop_ server_thread_
       metrics_thread_ metrics_mutex_ metrics_updated_ current_metrics_].
  rewrite I. cbn [fst].
  destruct (Z.ltb_spec (socket_returns calls) 0); [lia|].
  destruct (Z.ltb_spec (bind_returns calls) 0); [lia|].
  destruct (Z.ltb_spec (listen_returns calls) 0); [lia|].
  reflexivity.
Qed.

Lemma dotted_quad_reaches_accept_loop_witness :
  inet_pton "127.0.0.1" = (1, [127; 0; 0; 1])
  /\ setup_http_server example_calls [] example_server
     = accept_loop []
         (mk_server (set_server_socket 7 idle_exporter) [7; 3] []
            [info_listening "127.0.0.1" 9090]).
Proof.
  apply (dotted_quad_reaches_accept_loop 127 0 0 1 example_calls []
           example_server); try lia; try reflexivity; cbn; lia.
Defined.

(** X16.  A GPU load of a whole number of percent, 0 to 100, goes through
    the sampler's conversion to [float] and the renderer's one decimal
    unchanged: after the update the value printed for the GPU load is the
    number followed by .0 *)
Theorem gpu_load_percent_is_printed_exactly
  (engines : N -> string) (self : thread_id) (host : Live.process)
  (this : exporter) (n : Z) :
  metrics_mutex_ this = None -> 0 <= n <= 100 ->
  exists this',
    update_metrics engines self (host_with_gpu_load host n) this = Returns this'
    /\ format_fixed 1 (gpu_load (current_metrics_ this')) = to_string n ++ ".0".
Proof.
  intros Hm Hn. unfold update_metrics. rewrite Hm. cbn.
  eexists. split; [reflexivity|]. cbn [current_metrics_ gpu_load].
  pose proof percent_printed_listed as F. rewrite forallb_forall in F.
  apply String.eqb_eq, F, small_nat_listed. lia.
Qed.

Lemma gpu_load_percent_is_printed_exactly_witness :
  exists this',
    update_metrics example_engines 1%nat
      (host_with_gpu_load (example_host None) 97) idle_exporter
    = Returns this'
    /\ format_fixed 1 (gpu_load (current_metrics_ this')) = to_string 97 ++ ".0".
Proof.
  apply gpu_load_percent_is_printed_exactly; [reflexivity | lia].
Defined.


